(** * GithubRepoExtractor: a shallow embedding of [app.py]

    The program clones a repository into a temporary directory, renders
    its file tree, wraps the text of every enumerated file in a tagged
    block and removes the directory again.

    Conventions of the embedding.
    - A Python [str] is the [string] of its UTF-8 bytes.  Byte order on
      UTF-8 agrees with code point order, so [sorted] is byte-wise
      lexicographic order; [lower] acts on the ASCII letters, which is all
      the prefixes tested by the program can see.
    - Paths follow [posixpath].
    - A directory on disk is a finite tree of regular files and
      directories ([node]), without symbolic links; the text of a file is
      what [open(..).read()] answers for its path ([read_text]).
    - An exception is carried by its message, [str(e)].
    - The calls of the orchestrator and of the button handler are
      recorded in program order ([calls]); [shutil.rmtree] removes a
      directory that exists and raises on one that does not.
    - The working directory is taken to exist ([os.getcwd] answers
      [cwd]), and the recursion of [build_file_tree] is taken to stay
      within the interpreter's limit: neither failure is represented. *)

From Stdlib Require Import String Ascii List ZArith Lia Bool Arith.
From Stdlib Require Import Sorting.Mergesort Sorting.Sorted Sorting.Permutation Orders.
Import ListNotations.
Open Scope list_scope.
Open Scope string_scope.

(** ** Python strings *)

Module Py.

Definition nl : string := String "010" "".

Definition code (c : ascii) : nat := nat_of_ascii c.

Definition lower_char (c : ascii) : ascii :=
  if ((65 <=? code c) && (code c <=? 90))%nat then ascii_of_nat (code c + 32) else c.

(** [s.lower()] *)
Fixpoint lower (s : string) : string :=
  match s with
  | "" => ""
  | String c s' => String (lower_char c) (lower s')
  end.

(** [s.startswith(p)] *)
Definition startswith (s p : string) : bool := String.prefix p s.

(** [s.endswith("/")], the only use [posixpath.join] makes of it. *)
Fixpoint endswith_char (s : string) (c : ascii) : bool :=
  match s with
  | "" => false
  | String a "" => Ascii.eqb a c
  | String _ s' => endswith_char s' c
  end.

(** [s.split(sep)] for a one-character separator. *)
Fixpoint split (sep : ascii) (s : string) : list string :=
  match s with
  | "" => [""]
  | String c s' =>
      if Ascii.eqb c sep then "" :: split sep s'
      else match split sep s' with
           | [] => [String c ""]
           | h :: t => String c h :: t
           end
  end.

(** [sep.join(parts)] *)
Definition join (sep : string) (parts : list string) : string :=
  String.concat sep parts.

(** [s * n] *)
Fixpoint repeat (s : string) (n : nat) : string :=
  match n with
  | O => ""
  | S n' => s ++ repeat s n'
  end.

(** The characters [str.isspace] accepts, by the length of their UTF-8
    encoding: U+0009..000D, U+001C..0020; U+0085, U+00A0; U+1680,
    U+2000..200A, U+2028, U+2029, U+202F, U+205F, U+3000. *)
Definition is_space1 (a : ascii) : bool :=
  (((9 <=? code a) && (code a <=? 13))
   || ((28 <=? code a) && (code a <=? 32)))%nat.

Definition is_space2 (a b : ascii) : bool :=
  ((code a =? 194) && ((code b =? 133) || (code b =? 160)))%nat.

Definition is_space3 (a b c : ascii) : bool :=
  (((code a =? 225) && (code b =? 154) && (code c =? 128))
   || ((code a =? 226) && (code b =? 128)
       && (((128 <=? code c) && (code c <=? 138))
           || (code c =? 168) || (code c =? 169) || (code c =? 175)))
   || ((code a =? 226) && (code b =? 129) && (code c =? 159))
   || ((code a =? 227) && (code b =? 128) && (code c =? 128)))%nat.

(** [s.lstrip()] *)
Fixpoint lstrip (s : string) : string :=
  match s with
  | String a s1 =>
      if is_space1 a then lstrip s1
      else match s1 with
           | String b s2 =>
               if is_space2 a b then lstrip s2
               else match s2 with
                    | String c s3 => if is_space3 a b c then lstrip s3 else s
                    | "" => s
                    end
           | "" => s
           end
  | "" => s
  end.

(** [s.rstrip()], on the reversed list of bytes. *)
Fixpoint rstrip_rev (r : list ascii) : list ascii :=
  match r with
  | c :: r1 =>
      if is_space1 c then rstrip_rev r1
      else match r1 with
           | b :: r2 =>
               if is_space2 b c then rstrip_rev r2
               else match r2 with
                    | a :: r3 => if is_space3 a b c then rstrip_rev r3 else r
                    | [] => r
                    end
           | [] => r
           end
  | [] => r
  end.

Definition rstrip (s : string) : string :=
  string_of_list_ascii (rev (rstrip_rev (rev (list_ascii_of_string s)))).

(** [s.strip()] *)
Definition strip (s : string) : string := rstrip (lstrip s).

(** [enumerate(l)] *)
Definition enumerate {A : Type} (l : list A) : list (nat * A) :=
  combine (seq 0 (List.length l)) l.

(** A string made of whitespace characters only. *)
Inductive blank : string -> Prop :=
| blank_nil : blank ""
| blank_1 a s : is_space1 a = true -> blank s -> blank (String a s)
| blank_2 a b s :
    is_space2 a b = true -> blank s -> blank (String a (String b s))
| blank_3 a b c s :
    is_space3 a b c = true -> blank s ->
    blank (String a (String b (String c s))).

End Py.

(** [sorted] on a list of strings. *)
Module StringOrder <: TotalLeBool.
Definition t := string.
Definition leb := String.leb.
Definition leb_total := String.leb_total.
End StringOrder.

Module StringSort := Sort StringOrder.

Definition sorted (l : list string) : list string := StringSort.sort l.

(** ** [posixpath] *)

Module posixpath.

Definition sep : ascii := "/"%char.

(** [os.path.join(a, b)] *)
Definition join (a b : string) : string :=
  if Py.startswith b "/" then b
  else if (a =? "") || Py.endswith_char a sep then a ++ b
  else a ++ "/" ++ b.

(** [os.path.join(a, *p)] *)
Definition join_all (a : string) (p : list string) : string :=
  fold_left join p a.

(** The loop of [normpath] over the components; [stack] is [new_comps]
    with its last element first. *)
Definition norm_step (initial_slashes : nat) (stack : list string)
    (comp : string) : list string :=
  if (comp =? "") || (comp =? ".") then stack
  else if negb (comp =? "..")
          || ((initial_slashes =? 0)%nat
              && match stack with [] => true | _ => false end)
          || match stack with
             | top :: _ => top =? ".."
             | [] => false
             end
       then comp :: stack
       else match stack with
            | _ :: rest => rest
            | [] => stack
            end.

Definition initial_slashes (path : string) : nat :=
  if Py.startswith path "/" then
    if Py.startswith path "//" && negb (Py.startswith path "///") then 2
    else 1
  else 0.

(** [os.path.normpath(path)] *)
Definition normpath (path : string) : string :=
  if path =? "" then "."
  else
    let n := initial_slashes path in
    let comps := Py.split sep path in
    let new_comps := rev (fold_left (norm_step n) comps []) in
    let path := Py.join "/" new_comps in
    let path := Py.repeat "/" n ++ path in
    if path =? "" then "." else path.

(** [os.path.abspath(path)] with [os.getcwd()] as [cwd]. *)
Definition abspath (cwd path : string) : string :=
  normpath (if Py.startswith path "/" then path else join cwd path).

(** The length of [os.path.commonprefix([l1, l2])]. *)
Fixpoint commonprefix_len (l1 l2 : list string) : nat :=
  match l1, l2 with
  | a :: l1', b :: l2' => if a =? b then S (commonprefix_len l1' l2') else 0
  | _, _ => 0
  end.

Definition nonempty (s : string) : bool := negb (s =? "").

(** [os.path.relpath(path, start)]; [None] is the [ValueError] raised
    for an empty [path]. *)
Definition relpath (cwd path start : string) : option string :=
  if path =? "" then None
  else
    let start_list := filter nonempty (Py.split sep (abspath cwd start)) in
    let path_list := filter nonempty (Py.split sep (abspath cwd path)) in
    let i := commonprefix_len start_list path_list in
    let rel_list :=
      (List.repeat ".." (List.length start_list - i) ++ skipn i path_list)%list in
    match rel_list with
    | [] => Some "."
    | a :: p => Some (join_all a p)
    end.

End posixpath.

(** ** The file system *)

(** What a path holds: a regular file, or a directory with its entries in
    the order the operating system lists them.  [listable = false] is a
    directory whose listing fails ([os.listdir] raises, [os.scandir]
    errors). *)
#[warnings="-register-all"]
Inductive node : Type :=
| File : node
| Dir (listable : bool) (entries : list (string * node)) : node.

(** [os.path.isdir] *)
Definition isdir (n : node) : bool :=
  match n with
  | Dir _ _ => true
  | File => false
  end.

(** The entry of a directory listing with a given name. *)
Fixpoint lookup {A : Type} (name : string) (l : list (string * A)) : option A :=
  match l with
  | [] => None
  | (k, v) :: l' => if k =? name then Some v else lookup name l'
  end.

(** ** The functions of [app.py] *)

(** The external world of one run: the directory [tempfile.mkdtemp] hands
    out, the working directory, the outcome of [git clone] for a URL (its
    exit status, or the message of the error that kept the process from
    running), the tree a successful clone leaves in the target directory,
    and the result of reading a path as UTF-8 text (the text, or the
    message of the exception). *)
Inductive process : Type :=
| Exited (returncode : Z)
| NotRun (message : string).

Record host : Type := {
  tmp_name : string;
  cwd : string;
  git_clone : string -> string -> process;
  checkout : string -> node;
  read_text : string -> string + string
}.

Definition clone_error : string :=
  "Error cloning repository. Please ensure the URL is correct and that you have the necessary permissions.".

(** The names the enumerator skips (lines 35-40). *)
Definition skipped (file : string) : bool :=
  if file =? ".env" then true
  else if Py.startswith (Py.lower file) "readme.md"
          || Py.startswith (Py.lower file) "requirements.txt" then true
  else if Py.startswith (Py.lower file) "." then true
  else false.

(** [os.walk(top)], top-down.  [edit] is what the consumer does to the
    list [dirs] of a yielded triple before the generator resumes: the walk
    descends into the edited list.  The directory is passed as the tree
    found at [top]. *)
Fixpoint os_walk (edit : list string -> list string) (n : node) (top : string)
    : list (string * list string * list string) :=
  match n with
  | File => []
  | Dir false _ => []
  | Dir true entries =>
      let below := map (fun e => (fst e, os_walk edit (snd e))) entries in
      let dirs := map fst (filter (fun e => isdir (snd e)) entries) in
      let nondirs := map fst (filter (fun e => negb (isdir (snd e))) entries) in
      let dirs := edit dirs in
      (top, dirs, nondirs)
        :: flat_map (fun dirname =>
                       match lookup dirname below with
                       | Some walk => walk (posixpath.join top dirname)
                       | None => []
                       end) dirs
  end.

(** [dirs[:] = [d for d in dirs if d != '.git']] (line 32) *)
Definition prune_git (dirs : list string) : list string :=
  filter (fun d => negb (d =? ".git")) dirs.

(** The body of the outer loop of [get_all_files] after the edit of
    [dirs] (lines 33-41), for one triple of the walk. *)
Definition walk_step (file_paths : list string)
    (triple : string * list string * list string) : list string :=
  let '(root, dirs, files) := triple in
  fold_left
    (fun file_paths file =>
       if skipped file then file_paths
       else (file_paths ++ [posixpath.join root file])%list)
    files file_paths.

(** [get_all_files(directory)], with the tree found at [directory]. *)
Definition get_all_files (directory : string) (n : node) : list string :=
  fold_left walk_step (os_walk prune_git n directory) [].

(** [format_file_content(file_path, repo_root)]; [inr] is a raised
    exception. *)
Definition format_file_content (h : host) (file_path repo_root : string)
    : string + string :=
  let content :=
    match read_text h file_path with
    | inl text => text
    | inr e => "Error reading file: " ++ e
    end in
  match posixpath.relpath (cwd h) file_path repo_root with
  | None => inr "no path specified"
  | Some relative_path =>
      inl ("<" ++ relative_path ++ ">" ++ Py.nl ++ content ++ Py.nl
           ++ "</" ++ relative_path ++ ">")
  end.

(** The names [build_file_tree] leaves out of a listing (line 68). *)
Definition listed (item : string) : bool :=
  negb (existsb (String.eqb item) [".git"; ".env"]).

(** The body of the loop of [build_file_tree] (lines 69-75): [entry] is the
    pair [enumerate] yields and [n_items] is [len(items)].  [below]
    answers, for the name of an entry, whether [os.path.isdir] holds of it
    and what the recursive call on it returns. *)
Definition tree_step (below : list (string * (bool * (string -> string))))
    (prefix : string) (n_items : nat) (tree_str : string)
    (entry : nat * string) : string :=
  let '(i, item) := entry in
  let last := (i =? n_items - 1)%nat in
  let connector := if last then "└── " else "├── " in
  let tree_str := tree_str ++ prefix ++ connector ++ item ++ Py.nl in
  match lookup item below with
  | Some (true, build_below) =>
      let extension := if last then "    " else "│   " in
      tree_str ++ build_below (prefix ++ extension)
  | _ => tree_str
  end.

(** [build_file_tree(directory, prefix)], with the tree found at
    [directory]. *)
Fixpoint build_file_tree (n : node) (prefix : string) : string :=
  match n with
  | File => ""
  | Dir false _ => ""
  | Dir true entries =>
      let below :=
        map (fun e => (fst e, (isdir (snd e), build_file_tree (snd e)))) entries in
      let items := sorted (map fst entries) in
      let items := filter listed items in
      fold_left (tree_step below prefix (List.length items))
        (Py.enumerate items) ""
  end.

(** ** Effects *)

(** The calls the orchestrator and the button handler make, in program
    order. *)
Inductive call : Type :=
| Mkdtemp (d : string)
| GitClone (repo_url target_dir : string)
| BuildFileTree (directory : string)
| GetAllFiles (directory : string)
| FormatFileContent (file_path repo_root : string)
| Rmtree (d : string)
| JoinParts
| Update
| ShowError (title message : string).

(** The state a run acts on: the directories on disk with the trees under
    them, the calls made so far, and the text of the output widget. *)
Record world : Type := {
  disk : list (string * node);
  calls : list call;
  text_output : string
}.

Inductive result (A : Type) : Type :=
| Ok (a : A)
| Raise (message : string).

Arguments Ok {A} a.
Arguments Raise {A} message.

Definition M (A : Type) : Type := world -> result A * world.

Definition ret {A : Type} (a : A) : M A := fun w => (Ok a, w).

Definition bind {A B : Type} (m : M A) (k : A -> M B) : M B :=
  fun w =>
    match m w with
    | (Ok a, w') => k a w'
    | (Raise e, w') => (Raise e, w')
    end.

Notation "x <- m ;; k" := (bind m (fun x => k))
  (at level 61, m at next level, right associativity).
Notation "m ;;; k" := (bind m (fun _ => k))
  (at level 61, right associativity).

(** [try: body finally: cleanup] *)
Definition try_finally {A : Type} (body : M A) (cleanup : M unit) : M A :=
  fun w =>
    match body w with
    | (r, w') =>
        match cleanup w' with
        | (Ok _, w'') => (r, w'')
        | (Raise e, w'') => (Raise e, w'')
        end
    end.

Definition log (c : call) : M unit :=
  fun w => (Ok tt, {| disk := disk w;
                      calls := (calls w ++ [c])%list;
                      text_output := text_output w |}).

Definition set_disk (d : list (string * node)) : M unit :=
  fun w => (Ok tt, {| disk := d; calls := calls w; text_output := text_output w |}).

Definition get_disk : M (list (string * node)) := fun w => (Ok (disk w), w).

Definition set_text (s : string) : M unit :=
  fun w => (Ok tt, {| disk := disk w; calls := calls w; text_output := s |}).

Definition get_text : M string := fun w => (Ok (text_output w), w).

Definition raise {A : Type} (e : string) : M A := fun w => (Raise e, w).

(** A [for] loop threading an accumulator. *)
Fixpoint for_each {A B : Type} (l : list A) (acc : B) (body : B -> A -> M B)
    : M B :=
  match l with
  | [] => ret acc
  | x :: l' => acc' <- body acc x ;; for_each l' acc' body
  end.

Definition without (d : string) (dk : list (string * node)) : list (string * node) :=
  filter (fun e => negb (fst e =? d)) dk.

(** [tempfile.mkdtemp()] *)
Definition mkdtemp (h : host) : M string :=
  log (Mkdtemp (tmp_name h)) ;;;
  dk <- get_disk ;;
  set_disk ((tmp_name h, Dir true []) :: dk) ;;;
  ret (tmp_name h).

(** [shutil.rmtree(d)] *)
Definition rmtree (d : string) : M unit :=
  log (Rmtree d) ;;;
  dk <- get_disk ;;
  match lookup d dk with
  | Some _ => set_disk (without d dk)
  | None => raise ("[Errno 2] No such file or directory: '" ++ d ++ "'")
  end.

(** [clone_github_repo(repo_url, target_dir)]: [subprocess.run] with
    [check=True] raises [CalledProcessError] on a non-zero exit status,
    which the handler replaces; any other error passes through. *)
Definition clone_github_repo (h : host) (repo_url target_dir : string) : M unit :=
  log (GitClone repo_url target_dir) ;;;
  match git_clone h repo_url target_dir with
  | Exited 0 =>
      dk <- get_disk ;;
      set_disk ((target_dir, checkout h repo_url) :: without target_dir dk)
  | Exited _ => raise clone_error
  | NotRun e => raise e
  end.

(** The two readers of the tree, on the directory found on disk. *)
Definition build_file_tree_at (directory : string) : M string :=
  log (BuildFileTree directory) ;;;
  dk <- get_disk ;;
  ret match lookup directory dk with
      | Some n => build_file_tree n ""
      | None => ""
      end.

Definition get_all_files_at (directory : string) : M (list string) :=
  log (GetAllFiles directory) ;;;
  dk <- get_disk ;;
  ret match lookup directory dk with
      | Some n => get_all_files directory n
      | None => []
      end.

Definition format_file_content_at (h : host) (file_path repo_root : string)
    : M string :=
  log (FormatFileContent file_path repo_root) ;;;
  match format_file_content h file_path repo_root with
  | inl formatted => ret formatted
  | inr e => raise e
  end.

(** The body of the loop over [all_files] (lines 98-99). *)
Definition format_step (h : host) (temp_dir : string)
    (output_parts : list string) (file_path : string) : M (list string) :=
  formatted <- format_file_content_at h file_path temp_dir ;;
  ret (output_parts ++ [formatted])%list.

(** The [try] block of [extract_repo_contents] (lines 86-99); its value is
    [output_parts]. *)
Definition extract_body (h : host) (repo_url temp_dir : string)
    : M (list string) :=
  clone_github_repo h repo_url temp_dir ;;;
  file_tree <- build_file_tree_at temp_dir ;;
  let output_parts := ["File Tree:"; file_tree; Py.repeat "-" 40] in
  all_files <- get_all_files_at temp_dir ;;
  for_each all_files output_parts (format_step h temp_dir).

(** [extract_repo_contents(repo_url)] *)
Definition extract_repo_contents (h : host) (repo_url : string) : M string :=
  temp_dir <- mkdtemp h ;;
  output_parts <-
    try_finally (extract_body h repo_url temp_dir) (rmtree temp_dir) ;;
  log JoinParts ;;;
  ret (Py.join Py.nl output_parts).

(** [messagebox.showerror(title, message)] *)
Definition showerror (title message : string) : M unit :=
  log (ShowError title message).

(** [text_output.delete(1.0, tk.END)] and [text_output.insert(tk.END, s)] *)
Definition text_delete_all : M unit := set_text "".

Definition text_insert_end (s : string) : M unit :=
  t <- get_text ;; set_text (t ++ s).

(** [try: body except Exception as e: handler(e)] *)
Definition try_except {A : Type} (body : M A) (handler : string -> M A) : M A :=
  fun w =>
    match body w with
    | (Ok a, w') => (Ok a, w')
    | (Raise e, w') => handler e w'
    end.

(** [on_extract()], with the text of the entry widget. *)
Definition on_extract (h : host) (entry_repo : string) : M unit :=
  let repo_url := Py.strip entry_repo in
  if repo_url =? "" then
    showerror "Error" "Please enter a valid GitHub repository URL."
  else
    text_delete_all ;;;
    text_insert_end ("Processing repository. Please wait..." ++ Py.nl) ;;;
    log Update ;;;
    try_except
      (final_output <- extract_repo_contents h repo_url ;;
       text_delete_all ;;;
       text_insert_end final_output)
      (fun e =>
         text_delete_all ;;;
         text_insert_end ("An error occurred:" ++ Py.nl ++ e) ;;;
         showerror "Error" ("An error occurred: " ++ e)).

(** ** Notions used in the statements *)

(** A name a directory entry can bear: not empty, not [.] or [..], and
    free of the separator. *)
Fixpoint no_sep (s : string) : bool :=
  match s with
  | "" => true
  | String c s' => negb (Ascii.eqb c posixpath.sep) && no_sep s'
  end.

Definition plain (name : string) : bool :=
  negb (name =? "") && negb (name =? ".") && negb (name =? "..") && no_sep name.

(** A tree all of whose entries bear such names. *)
Fixpoint well_named (n : node) : bool :=
  match n with
  | File => true
  | Dir _ entries =>
      forallb (fun e => plain (fst e) && well_named (snd e)) entries
  end.

(** The exclusion policy of the enumerator in the words of the
    specification, with case-insensitivity written out on the characters:
    the character [c] of a name matches the character [p] of a pattern
    written in lower case when it is [p], or when [p] is a letter and [c]
    is its capital.  A name is excluded when it is exactly [.env], or
    begins with [readme.md], with [requirements.txt] or with a dot, up to
    case. *)
Definition same_letter (p c : ascii) : bool :=
  Ascii.eqb c p
  || ((97 <=? Py.code p) && (Py.code p <=? 122)
      && (Py.code c + 32 =? Py.code p))%nat.

Fixpoint begins_with (pattern name : string) : bool :=
  match pattern with
  | "" => true
  | String p pattern' =>
      match name with
      | "" => false
      | String c name' => same_letter p c && begins_with pattern' name'
      end
  end.

Definition is_exactly (pattern name : string) : bool :=
  begins_with pattern name
  && (String.length name =? String.length pattern)%nat.

Definition excluded_by_policy (file : string) : bool :=
  is_exactly ".env" file
  || begins_with "readme.md" file
  || begins_with "requirements.txt" file
  || begins_with "." file.

(** A pattern without capital letters. *)
Fixpoint no_capital (pattern : string) : bool :=
  match pattern with
  | "" => true
  | String p pattern' =>
      ((Py.code p <? 65) || (90 <? Py.code p))%nat && no_capital pattern'
  end.

(** A directory with a file and a subdirectory holding a file. *)
Definition nested_scenario : node :=
  Dir true [("src", Dir true [("a.py", File)]); ("top.py", File)].


(** One entry line of the tree listing. *)
Record row : Type := {
  row_prefix : string;
  row_connector : string;
  row_item : string
}.

Definition row_line (r : row) : string :=
  row_prefix r ++ row_connector r ++ row_item r ++ Py.nl.

(** The lines one after the other. *)
Definition flatten (lines : list string) : string :=
  fold_right String.append "" lines.

(** The connector and the continuation of an entry, by whether it is the
    last one of its level. *)
Definition connector_of (last : bool) : string :=
  if last then "└── " else "├── ".

Definition extension_of (last : bool) : string :=
  if last then "    " else "│   ".

Definition is_last {A : Type} (rest : list A) : bool :=
  match rest with
  | [] => true
  | _ :: _ => false
  end.

(** A level of the listing written by recursion on its items; [sub item p]
    is the text below [item] under the prefix [p]. *)
Fixpoint render_level (sub : string -> string -> string) (prefix : string)
    (items : list string) : string :=
  match items with
  | [] => ""
  | item :: rest =>
      prefix ++ connector_of (is_last rest) ++ item ++ Py.nl
      ++ sub item (prefix ++ extension_of (is_last rest))
      ++ render_level sub prefix rest
  end.

(** The same for the rows. *)
Fixpoint level_rows (sub : string -> string -> list row) (prefix : string)
    (items : list string) : list row :=
  match items with
  | [] => []
  | item :: rest =>
      ({| row_prefix := prefix;
          row_connector := connector_of (is_last rest);
          row_item := item |}
         :: sub item (prefix ++ extension_of (is_last rest)))
      ++ level_rows sub prefix rest
  end.

(** What is below an entry: nothing unless the entry is a directory. *)
Definition below_entry {A : Type} (nothing : A)
    (l : list (string * (bool * (string -> A)))) (item prefix : string) : A :=
  match lookup item l with
  | Some (true, f) => f prefix
  | _ => nothing
  end.

(** The entry lines of a listing, at every depth, in the order they are
    written. *)
Fixpoint tree_rows (n : node) (prefix : string) : list row :=
  match n with
  | File => []
  | Dir false _ => []
  | Dir true entries =>
      let below :=
        map (fun e => (fst e, (isdir (snd e), tree_rows (snd e)))) entries in
      level_rows (below_entry [] below) prefix
        (filter listed (sorted (map fst entries)))
  end.

(** The text below an entry of a directory, as [build_file_tree] renders
    it. *)
Definition subtree (entries : list (string * node)) (item prefix : string)
    : string :=
  match lookup item entries with
  | Some child => if isdir child then build_file_tree child prefix else ""
  | None => ""
  end.

(** The block [format_file_content] returns for a file, when it returns. *)
Definition block_of (h : host) (repo_root file_path : string) : string :=
  match format_file_content h file_path repo_root with
  | inl formatted => formatted
  | inr _ => ""
  end.

(** The world after a run that left [dk] on disk and made the calls [cs]. *)
Definition after (w : world) (dk : list (string * node)) (cs : list call)
    : world :=
  {| disk := dk; calls := (calls w ++ cs)%list; text_output := text_output w |}.

(** The segments that precede the blocks of the files. *)
Definition header (t : node) : list string :=
  ["File Tree:"; build_file_tree t ""; Py.repeat "-" 40].

(** The calls of a run whose clone succeeded and that formatted [files],
    up to the removal of the workspace. *)
Definition calls_through_format (repo_url d : string) (files : list string)
    : list call :=
  ([Mkdtemp d; GitClone repo_url d; BuildFileTree d; GetAllFiles d]
   ++ map (fun p => FormatFileContent p d) files)%list.

(** The directory of the scenario: [README.md], [a.py], [.env] and
    [.git/config]. *)
Definition scenario : node :=
  Dir true [("README.md", File); ("a.py", File); (".env", File);
            (".git", Dir true [("config", File)])].

(** A host and a world to run the program on: the clone of one URL exits
    with status 128 and every other clone succeeds and leaves [src/a.txt]
    and [src/b.bin]; [a.txt] reads as [hello] and every other read raises
    [boom]. *)
Definition missing_url : string := "https://example.org/missing.git".

Definition sample_url : string := "https://example.org/sample.git".

Definition sample_host : host := {|
  tmp_name := "/tmp/ws";
  cwd := "/home/user";
  git_clone := fun url _ => if url =? missing_url then Exited 128 else Exited 0;
  checkout := fun _ => Dir true [("src", Dir true [("a.txt", File); ("b.bin", File)])];
  read_text := fun p => if p =? "/tmp/ws/src/a.txt" then inl "hello" else inr "boom"
|}.

Definition sample_world : world :=
  {| disk := []; calls := []; text_output := "" |}.

(** ** Notions used in the further statements *)

(** [file_at n dirs file]: in the tree [n], the walk reaches the entry
    [file], which is not a directory, by descending through the
    directories named [dirs], each of them listable and found under its
    name in the listing of the one above. *)
Inductive file_at : node -> list string -> string -> Prop :=
| file_here entries file c :
    In (file, c) entries -> isdir c = false ->
    file_at (Dir true entries) [] file
| file_below entries d c child dirs file :
    In (d, c) entries -> isdir c = true ->
    lookup d entries = Some child ->
    file_at child dirs file ->
    file_at (Dir true entries) (d :: dirs) file.

(** Two trees that differ only in the order in which their directories
    list their entries. *)
Inductive same_tree : node -> node -> Prop :=
| same_file : same_tree File File
| same_dir listable entries entries' :
    Permutation (map fst entries) (map fst entries') ->
    (forall name c c',
        lookup name entries = Some c -> lookup name entries' = Some c' ->
        same_tree c c') ->
    same_tree (Dir listable entries) (Dir listable entries').

(** The two continuations of a prefix. *)
Definition continuation (e : string) : Prop := e = "│   " \/ e = "    ".

(** A reversed string made of whitespace characters only. *)
Inductive blank_rev : list ascii -> Prop :=
| blank_rev_nil : blank_rev []
| blank_rev_1 c r : Py.is_space1 c = true -> blank_rev r -> blank_rev (c :: r)
| blank_rev_2 b c r :
    Py.is_space2 b c = true -> blank_rev r -> blank_rev (c :: b :: r)
| blank_rev_3 a b c r :
    Py.is_space3 a b c = true -> blank_rev r -> blank_rev (c :: b :: a :: r).

(** A printable ASCII character other than the space, and a string that
    begins and ends with one. *)
Definition graphic (c : ascii) : bool :=
  ((33 <=? Py.code c) && (Py.code c <=? 126))%nat.

Definition trimmed (u : string) : Prop :=
  (exists c m, u = String c m /\ graphic c = true)
  /\ (exists m c, u = m ++ String c "" /\ graphic c = true).

(** A tree in which no directory lists a name twice. *)
Inductive distinct_names : node -> Prop :=
| distinct_file : distinct_names File
| distinct_dir listable entries :
    NoDup (map fst entries) ->
    (forall name c, In (name, c) entries -> distinct_names c) ->
    distinct_names (Dir listable entries).

(** The shape of an entry line under [prefix]: the prefix, continuations,
    and one of the two connectors. *)
Definition row_shape (prefix : string) (r : row) : Prop :=
  (row_connector r = "├── " \/ row_connector r = "└── ")
  /\ exists exts,
       row_prefix r = prefix ++ flatten exts /\ Forall continuation exts.

(** A string without the character [c]; a tree none of whose names holds
    a newline; and an entry line without its final newline. *)
Fixpoint free_of (c : ascii) (s : string) : bool :=
  match s with
  | "" => true
  | String a s' => negb (Ascii.eqb a c) && free_of c s'
  end.

Definition newline : ascii := "010"%char.

Fixpoint one_line_names (n : node) : bool :=
  match n with
  | File => true
  | Dir _ entries =>
      forallb (fun e => free_of newline (fst e) && one_line_names (snd e))
        entries
  end.

Definition row_text (r : row) : string :=
  row_prefix r ++ row_connector r ++ row_item r.

(** The tree the sample host checks out, the same tree as another
    listing order gives it, and a host on which [git] cannot be started. *)
Definition sample_tree : node := checkout sample_host sample_url.

Definition sample_tree_relisted : node :=
  Dir true [("src", Dir true [("b.bin", File); ("a.txt", File)])].

Definition gitless_host : host := {|
  tmp_name := "/tmp/ws";
  cwd := "/home/user";
  git_clone := fun _ _ => NotRun "[Errno 2] No such file or directory: 'git'";
  checkout := fun _ => Dir true [];
  read_text := fun _ => inr "boom"
|}.

(** ** Strings and lists *)

Section Strings.

Lemma append_assoc (a b c : string) : (a ++ b) ++ c = a ++ (b ++ c).
Proof.
  induction a as [|x a IH]; simpl; [reflexivity | now rewrite IH].
Qed.

Lemma append_nil_r (a : string) : a ++ "" = a.
Proof.
  induction a as [|x a IH]; simpl; [reflexivity | now rewrite IH].
Qed.

Lemma append_eq_nil (a b : string) : a ++ b = "" -> a = "" /\ b = "".
Proof.
  destruct a; simpl; [auto | discriminate].
Qed.

Lemma leb_trans (a b c : string) :
  String.leb a b = true -> String.leb b c = true -> String.leb a c = true.
Proof.
  unfold String.leb.
  revert b c; induction a as [|x a IH]; intros [|y b] [|z c]; simpl;
    try reflexivity; try discriminate.
  unfold Ascii.compare.
  destruct (N.compare_spec (N_of_ascii x) (N_of_ascii y)) as [exy|lxy|gxy];
    destruct (N.compare_spec (N_of_ascii y) (N_of_ascii z)) as [eyz|lyz|gyz];
    try discriminate; intros Hab Hbc.
  - rewrite exy, eyz, N.compare_refl. now apply IH with b.
  - rewrite exy. now apply N.compare_lt_iff in lyz as ->.
  - rewrite <- eyz. now apply N.compare_lt_iff in lxy as ->.
  - assert (H : (N_of_ascii x < N_of_ascii z)%N) by lia.
    now apply N.compare_lt_iff in H as ->.
Qed.

End Strings.

Section Lists.

Context {A B : Type}.

Lemma lookup_map (g : A -> B) (item : string) (entries : list (string * A)) :
  lookup item (map (fun e => (fst e, g (snd e))) entries)
  = option_map g (lookup item entries).
Proof.
  induction entries as [|[k v] entries IH]; simpl; [reflexivity|].
  destruct (k =? item); [reflexivity | exact IH].
Qed.

Lemma lookup_In (item : string) (v : A) (entries : list (string * A)) :
  lookup item entries = Some v -> In (item, v) entries.
Proof.
  induction entries as [|[k v'] entries IH]; simpl; [discriminate|].
  destruct (String.eqb_spec k item) as [->|_].
  - intros [= ->]. now left.
  - intros H. right. now apply IH.
Qed.

Lemma filter_Permutation (f : A -> bool) (l l' : list A) :
  Permutation l l' -> Permutation (filter f l) (filter f l').
Proof.
  induction 1 as [|x l l' _ IH|x y l|l l' l'' _ IH1 _ IH2]; simpl.
  - constructor.
  - destruct (f x); [now constructor | exact IH].
  - destruct (f x), (f y); try reflexivity. constructor.
  - now transitivity (filter f l').
Qed.

Lemma filter_StronglySorted (R : A -> A -> Prop) (f : A -> bool) (l : list A) :
  StronglySorted R l -> StronglySorted R (filter f l).
Proof.
  induction 1 as [|x l _ IH Hx]; simpl; [constructor|].
  destruct (f x); [|exact IH].
  constructor; [exact IH|].
  rewrite Forall_forall in *. intros y Hy.
  apply filter_In in Hy. now apply Hx.
Qed.

(** A loop that appends the kept elements is a comprehension. *)
Lemma fold_left_collect (drop : A -> bool) (f : A -> B) (l : list A)
    (acc : list B) :
  fold_left (fun acc x => if drop x then acc else (acc ++ [f x])%list) l acc
  = (acc ++ map f (filter (fun x => negb (drop x)) l))%list.
Proof.
  revert acc; induction l as [|x l IH]; intros acc; simpl.
  - now rewrite app_nil_r.
  - rewrite IH. destruct (drop x); simpl; [reflexivity|].
    now rewrite <- app_assoc.
Qed.

End Lists.

(** ** The tree renderer *)

Lemma node_induction (P : node -> Prop) :
  P File ->
  (forall listable entries,
      Forall (fun e => P (snd e)) entries -> P (Dir listable entries)) ->
  forall n, P n.
Proof.
  intros HF HD. fix IH 1. intros [|listable entries].
  - exact HF.
  - apply HD. induction entries as [|e entries IHe]; constructor.
    + apply IH.
    + exact IHe.
Qed.

Section TreeRenderer.

Lemma flatten_app (l1 l2 : list string) :
  flatten (l1 ++ l2) = flatten l1 ++ flatten l2.
Proof.
  induction l1 as [|x l1 IH]; simpl; [reflexivity|].
  now rewrite IH, append_assoc.
Qed.

(** The loop over [enumerate(items)] writes the level as the recursive
    rendering does: the entry at index [len(items) - 1] is the one with
    nothing after it. *)
Lemma tree_loop below prefix total :
  forall items k acc,
    total = (k + List.length items)%nat ->
    fold_left (tree_step below prefix total)
      (combine (seq k (List.length items)) items) acc
    = acc ++ render_level (below_entry "" below) prefix items.
Proof.
  induction items as [|x rest IH]; intros k acc Ht; simpl.
  - now rewrite append_nil_r.
  - rewrite (IH (S k)) by (simpl in Ht; lia).
    assert (Hlast : (k =? total - 1)%nat = is_last rest).
    { destruct rest; simpl in *.
      - apply Nat.eqb_eq. lia.
      - apply Nat.eqb_neq. lia. }
    unfold tree_step, below_entry, connector_of, extension_of.
    rewrite Hlast.
    destruct (lookup x below) as [[[|] f]|]; simpl;
      repeat rewrite append_assoc; reflexivity.
Qed.

Lemma render_level_ext sub1 sub2 prefix items :
  (forall item p, sub1 item p = sub2 item p) ->
  render_level sub1 prefix items = render_level sub2 prefix items.
Proof.
  intros H. induction items as [|x rest IH]; simpl; [reflexivity|].
  now rewrite H, IH.
Qed.

Lemma below_subtree entries item prefix :
  below_entry ""
    (map (fun e => (fst e, (isdir (snd e), build_file_tree (snd e)))) entries)
    item prefix
  = subtree entries item prefix.
Proof.
  unfold below_entry, subtree.
  rewrite (lookup_map (fun c => (isdir c, build_file_tree c))).
  destruct (lookup item entries) as [[|l es]|]; reflexivity.
Qed.

Lemma build_file_tree_level entries prefix :
  build_file_tree (Dir true entries) prefix
  = render_level (subtree entries) prefix
      (filter listed (sorted (map fst entries))).
Proof.
  simpl. unfold Py.enumerate.
  rewrite (tree_loop _ _ _ _ 0 "") by reflexivity.
  simpl. apply render_level_ext. intros. apply below_subtree.
Qed.

Lemma render_level_rows subS subR prefix items :
  (forall item p, subS item p = flatten (map row_line (subR item p))) ->
  render_level subS prefix items
  = flatten (map row_line (level_rows subR prefix items)).
Proof.
  intros H. induction items as [|x rest IH]; [reflexivity|].
  cbn [render_level level_rows].
  rewrite map_app, flatten_app, <- IH, H, map_cons.
  change (flatten (?l :: ?ls)) with (l ++ flatten ls).
  unfold row_line. cbn [row_prefix row_connector row_item].
  repeat rewrite append_assoc. reflexivity.
Qed.

Lemma level_rows_Forall (P : row -> Prop) subR prefix items :
  (forall c, Forall (fun item =>
     P {| row_prefix := prefix; row_connector := c; row_item := item |}) items) ->
  (forall item p, Forall P (subR item p)) ->
  Forall P (level_rows subR prefix items).
Proof.
  intros Hi Hs. induction items as [|x rest IH]; simpl; [constructor|].
  constructor.
  - specialize (Hi (connector_of (is_last rest))). now inversion Hi.
  - apply Forall_app. split; [apply Hs|].
    apply IH. intros c. specialize (Hi c). now inversion Hi.
Qed.

Lemma listed_spec item :
  listed item = true <-> item <> ".git" /\ item <> ".env".
Proof.
  unfold listed. simpl.
  destruct (String.eqb_spec item ".git"), (String.eqb_spec item ".env");
    simpl; intuition congruence.
Qed.

Lemma sorted_strongly (l : list string) :
  StronglySorted (fun a b => String.leb a b = true) (sorted l).
Proof.
  apply (StringSort.StronglySorted_sort l).
  intros a b c. apply leb_trans.
Qed.

End TreeRenderer.

(** C6.  The text [build_file_tree] returns is its entry lines one after
    the other, at every depth of the recursion, and none of these lines
    is the line of an entry named [.git] or [.env]. *)
Theorem tree_never_lists_git_or_env (n : node) (prefix : string) :
  build_file_tree n prefix = flatten (map row_line (tree_rows n prefix))
  /\ Forall (fun r => row_item r <> ".git" /\ row_item r <> ".env")
       (tree_rows n prefix).
Proof.
  revert prefix. induction n as [|listable entries IH] using node_induction;
    intros prefix.
  - split; [reflexivity | constructor].
  - destruct listable; [|split; [reflexivity | constructor]].
    rewrite Forall_forall in IH.
    assert (Hsub : forall item p,
      subtree entries item p
      = flatten (map row_line
          (below_entry []
             (map (fun e => (fst e, (isdir (snd e), tree_rows (snd e)))) entries)
             item p))
      /\ Forall (fun r => row_item r <> ".git" /\ row_item r <> ".env")
           (below_entry []
             (map (fun e => (fst e, (isdir (snd e), tree_rows (snd e)))) entries)
             item p)).
    { intros item p. unfold subtree, below_entry.
      rewrite (lookup_map (fun c => (isdir c, tree_rows c))).
      destruct (lookup item entries) as [child|] eqn:Hl;
        [|split; [reflexivity | constructor]].
      apply lookup_In in Hl. specialize (IH _ Hl p). simpl in IH.
      destruct child; simpl; [split; [reflexivity | constructor] | exact IH]. }
    split.
    + rewrite build_file_tree_level. cbn [tree_rows].
      apply render_level_rows. intros. apply Hsub.
    + cbn [tree_rows]. apply level_rows_Forall.
      * intros c. apply Forall_forall. intros item Hi. simpl.
        apply filter_In in Hi. now apply listed_spec.
      * intros. apply Hsub.
Qed.

(** C7.  The entries of a level are exactly the names of the directory
    other than [.git] and [.env], each as often as the directory lists it,
    in lexicographic order of their characters (upper case before lower
    case).  Every entry but the last is written after the prefix and
    [├── ], and what is below it after the prefix extended with [│   ]; the
    last entry is written after [└── ], and what is below it after the
    prefix extended with four spaces.  What is below an entry comes right
    after its line, before the next entry. *)
Theorem tree_levels_sorted_and_connected
    (entries : list (string * node)) (prefix : string) :
  exists items,
    (forall name,
        In name items
        <-> In name (map fst entries) /\ name <> ".git" /\ name <> ".env")
    /\ Permutation
         (filter (fun name => negb (name =? ".git") && negb (name =? ".env"))
            (map fst entries))
         items
    /\ StronglySorted (fun a b => String.leb a b = true) items
    /\ build_file_tree (Dir true entries) prefix
       = render_level (subtree entries) prefix items
    /\ (forall sub p item next rest,
          render_level sub p (item :: next :: rest)
          = p ++ "├── " ++ item ++ Py.nl ++ sub item (p ++ "│   ")
            ++ render_level sub p (next :: rest))
    /\ (forall sub p item,
          render_level sub p [item]
          = p ++ "└── " ++ item ++ Py.nl ++ sub item (p ++ "    ")).
Proof.
  exists (filter listed (sorted (map fst entries))).
  assert (Hf : forall name,
             negb (name =? ".git") && negb (name =? ".env") = listed name).
  { intros name. unfold listed. simpl.
    destruct (name =? ".git"), (name =? ".env"); reflexivity. }
  split; [|split; [|split; [|split; [|split]]]].
  - intros name. rewrite filter_In, listed_spec. split.
    + intros [Hin Hl]. split; [|exact Hl].
      apply (Permutation_in name
               (Permutation_sym (StringSort.Permuted_sort (map fst entries)))).
      exact Hin.
    + intros [Hin Hl]. split; [|exact Hl].
      apply (Permutation_in name (StringSort.Permuted_sort (map fst entries))).
      exact Hin.
  - rewrite (filter_ext _ listed Hf).
    apply filter_Permutation, StringSort.Permuted_sort.
  - apply filter_StronglySorted, sorted_strongly.
  - apply build_file_tree_level.
  - reflexivity.
  - intros. cbn [render_level is_last connector_of extension_of].
    now rewrite append_nil_r.
Qed.

(** ** The file enumerator *)

Section Enumerator.

Lemma code_inj (a b : ascii) : Py.code a = Py.code b -> a = b.
Proof.
  unfold Py.code. intros H.
  rewrite <- (ascii_nat_embedding a), <- (ascii_nat_embedding b).
  now rewrite H.
Qed.

(** Lowering a character gives the character of a pattern exactly when
    the two are the same letter. *)
Lemma lower_char_same (p c : ascii) :
  ((Py.code p <? 65) || (90 <? Py.code p))%nat = true ->
  (if ascii_dec p (Py.lower_char c) then true else false) = same_letter p c.
Proof.
  intros Hp. apply orb_prop in Hp. rewrite !Nat.ltb_lt in Hp.
  pose proof (nat_ascii_bounded c) as Hc. fold (Py.code c) in Hc.
  unfold Py.lower_char, same_letter.
  destruct ((65 <=? Py.code c) && (Py.code c <=? 90))%nat eqn:E.
  - apply andb_prop in E as [E1 E2]. apply Nat.leb_le in E1, E2.
    replace (Ascii.eqb c p) with false
      by (symmetry; apply Ascii.eqb_neq; intros ->; lia).
    cbn [orb].
    destruct (ascii_dec p (ascii_of_nat (Py.code c + 32))) as [e|n].
    + assert (Hpc : Py.code p = Py.code c + 32).
      { rewrite e. unfold Py.code. apply nat_ascii_embedding.
        fold (Py.code c). lia. }
      symmetry. rewrite !andb_true_iff, !Nat.leb_le, Nat.eqb_eq. lia.
    + symmetry. apply andb_false_iff. right. apply Nat.eqb_neq.
      intros H. apply n. apply code_inj. rewrite <- H.
      unfold Py.code. rewrite nat_ascii_embedding; [reflexivity|].
      fold (Py.code c). lia.
  - apply andb_false_iff in E. rewrite !Nat.leb_gt in E.
    replace ((97 <=? Py.code p) && (Py.code p <=? 122)
             && (Py.code c + 32 =? Py.code p))%nat with false.
    2:{ symmetry. apply not_true_is_false. intros H.
        rewrite !andb_true_iff, !Nat.leb_le, Nat.eqb_eq in H. lia. }
    rewrite orb_false_r.
    destruct (ascii_dec p c) as [->|n]; symmetry.
    + apply Ascii.eqb_refl.
    + apply Ascii.eqb_neq. intros ->. now apply n.
Qed.

Lemma startswith_lower (pattern : string) :
  no_capital pattern = true ->
  forall s, Py.startswith (Py.lower s) pattern = begins_with pattern s.
Proof.
  unfold Py.startswith.
  induction pattern as [|p pattern IH]; intros Hp s.
  - simpl. now destruct (Py.lower s).
  - cbn [no_capital] in Hp. apply andb_prop in Hp as [Hp Hrest].
    destruct s as [|c s]; [reflexivity|].
    cbn [Py.lower begins_with].
    change (String.prefix (String p pattern)
              (String (Py.lower_char c) (Py.lower s)))
      with (if ascii_dec p (Py.lower_char c)
            then String.prefix pattern (Py.lower s) else false).
    rewrite <- (lower_char_same p c Hp).
    destruct (ascii_dec p (Py.lower_char c)); [now apply IH | reflexivity].
Qed.

Lemma exactly_env_hidden (file : string) :
  is_exactly ".env" file = true -> begins_with "." file = true.
Proof.
  unfold is_exactly. intros H. apply andb_prop in H as [H _].
  destruct file as [|c file]; [discriminate|].
  cbn [begins_with] in *. apply andb_prop in H as [H _]. now rewrite H.
Qed.

Lemma skipped_policy (file : string) :
  skipped file = excluded_by_policy file.
Proof.
  unfold skipped, excluded_by_policy.
  rewrite (startswith_lower "readme.md"), (startswith_lower "requirements.txt"),
    (startswith_lower ".") by reflexivity.
  destruct (String.eqb_spec file ".env") as [->|_]; [reflexivity|].
  pose proof (exactly_env_hidden file) as H.
  destruct (is_exactly ".env" file), (begins_with "readme.md" file),
    (begins_with "requirements.txt" file), (begins_with "." file);
    try reflexivity.
  specialize (H eq_refl). discriminate.
Qed.

Lemma walk_step_acc triple acc :
  walk_step acc triple = (acc ++ walk_step [] triple)%list.
Proof.
  destruct triple as [[root dirs] files]. unfold walk_step.
  now rewrite !(fold_left_collect skipped (posixpath.join root)).
Qed.

Lemma walk_steps_acc triples :
  forall acc,
    fold_left walk_step triples acc
    = (acc ++ fold_left walk_step triples [])%list.
Proof.
  induction triples as [|t triples IH]; intros acc; simpl.
  - now rewrite app_nil_r.
  - rewrite IH, (IH (walk_step [] t)), walk_step_acc.
    now rewrite app_assoc.
Qed.

Lemma walk_steps_flat_map {A : Type}
    (g : A -> list (string * list string * list string)) (l : list A) :
  fold_left walk_step (flat_map g l) []
  = flat_map (fun x => fold_left walk_step (g x) []) l.
Proof.
  induction l as [|x l IH]; simpl; [reflexivity|].
  now rewrite fold_left_app, walk_steps_acc, IH.
Qed.

(** The files of a directory come first, in the order of the listing
    and without the skipped names, then the files below each of its
    subdirectories other than [.git], in the order of the listing. *)
Lemma get_all_files_dir (top : string) (entries : list (string * node)) :
  get_all_files top (Dir true entries)
  = (map (posixpath.join top)
       (filter (fun file => negb (skipped file))
          (map fst (filter (fun e => negb (isdir (snd e))) entries)))
     ++ flat_map
          (fun dirname =>
             match lookup dirname entries with
             | Some child => get_all_files (posixpath.join top dirname) child
             | None => []
             end)
          (prune_git (map fst (filter (fun e => isdir (snd e)) entries))))%list.
Proof.
  unfold get_all_files. cbn [os_walk fold_left].
  rewrite walk_steps_acc. f_equal.
  - unfold walk_step.
    now rewrite (fold_left_collect skipped (posixpath.join top)).
  - rewrite walk_steps_flat_map. apply flat_map_ext. intros dirname.
    rewrite (lookup_map (os_walk prune_git)).
    now destruct (lookup dirname entries).
Qed.

End Enumerator.

Section EnumeratedFiles.

Lemma file_at_inv entries dirs file :
  file_at (Dir true entries) dirs file ->
  (dirs = [] /\ exists c, In (file, c) entries /\ isdir c = false)
  \/ (exists d c child dirs',
         dirs = d :: dirs' /\ In (d, c) entries /\ isdir c = true
         /\ lookup d entries = Some child /\ file_at child dirs' file).
Proof.
  intros H. inversion H; subst.
  - left. split; [reflexivity | now exists c].
  - right. now exists d, c, child, dirs0.
Qed.

(** The enumerator returns the files the walk reaches without passing
    through a directory named [.git] and whose name is not skipped, and
    nothing else. *)
Lemma get_all_files_iff (n : node) :
  forall top p,
    In p (get_all_files top n)
    <-> exists dirs file,
          file_at n dirs file /\ ~ In ".git" dirs /\ skipped file = false
          /\ p = posixpath.join_all top (dirs ++ [file]).
Proof.
  induction n as [|listable entries IH] using node_induction; intros top p.
  - split; [intros [] | intros [dirs [file [H _]]]; inversion H].
  - destruct listable;
      [|split; [intros [] | intros [dirs [file [H _]]]; inversion H]].
    rewrite Forall_forall in IH.
    rewrite get_all_files_dir, in_app_iff. split.
    + intros [Hp|Hp].
      * apply in_map_iff in Hp as [file [<- Hf]].
        apply filter_In in Hf as [Hf Hs].
        apply in_map_iff in Hf as [[name c] [Hn He]]. simpl in Hn. subst name.
        apply filter_In in He as [He Hd]. simpl in Hd.
        exists [], file. repeat split.
        -- apply (file_here entries file c He). now apply negb_true_iff.
        -- intros [].
        -- now apply negb_true_iff.
      * apply in_flat_map in Hp as [d [Hd Hp]].
        apply filter_In in Hd as [Hd Hg].
        apply in_map_iff in Hd as [[name c] [Hn He]]. simpl in Hn. subst name.
        apply filter_In in He as [He Hc]. simpl in Hc.
        destruct (lookup d entries) as [child|] eqn:Hl; [|now elim Hp].
        apply (IH _ (lookup_In _ _ _ Hl)) in Hp
          as [dirs [file [Hat [Hng [Hs ->]]]]].
        exists (d :: dirs), file. repeat split.
        -- exact (file_below entries d c child dirs file He Hc Hl Hat).
        -- intros [Hd|Hin]; [|now apply Hng].
           rewrite Hd in Hg. discriminate.
        -- exact Hs.
    + intros [dirs [file [Hat [Hng [Hs ->]]]]].
      apply file_at_inv in Hat
        as [[-> [c [He Hc]]]|[d [c [child [dirs' [-> [He [Hc [Hl Hat]]]]]]]]].
      * left. apply in_map_iff. exists file. split; [reflexivity|].
        apply filter_In. split; [|now rewrite Hs].
        apply in_map_iff. exists (file, c). split; [reflexivity|].
        apply filter_In. split; [exact He | simpl; now rewrite Hc].
      * right. apply in_flat_map. exists d. split.
        -- apply filter_In. split.
           ++ apply in_map_iff. exists (d, c). split; [reflexivity|].
              apply filter_In. now split.
           ++ apply negb_true_iff, String.eqb_neq.
              intros ->. apply Hng. now left.
        -- rewrite Hl. apply (IH _ (lookup_In _ _ _ Hl)).
           exists dirs', file. repeat split; try assumption.
           intros Hin. apply Hng. now right.
Qed.

Lemma file_at_plain (n : node) dirs file :
  file_at n dirs file -> well_named n = true ->
  forallb plain (dirs ++ [file]) = true.
Proof.
  induction 1 as [entries file c He Hc|entries d c child dirs file He Hc Hl _ IH];
    intros Hw; cbn [well_named] in Hw; rewrite forallb_forall in Hw.
  - apply Hw in He. apply andb_prop in He as [He _]. simpl in *.
    now rewrite He.
  - pose proof (Hw _ (lookup_In _ _ _ Hl)) as Hd.
    apply andb_prop in Hd as [Hd Hch]. simpl in *.
    now rewrite Hd, (IH Hch).
Qed.

End EnumeratedFiles.

(** C2.  A file name is skipped by the enumerator exactly when, up to
    the case of its letters, it is [.env] or begins with [readme.md],
    [requirements.txt] or a dot.  The enumerator returns exactly the files
    whose name is not excluded in that way and that are reached through
    listable directories none of which is named [.git]: every other file
    is included, those below subdirectories too.  For the directory
    holding [README.md], [a.py], [.env] and [.git/config] the result is the
    single path of [a.py] joined to the root. *)
Theorem enumerator_exclusion_policy :
  (forall file, skipped file = excluded_by_policy file)
  /\ (skipped "README.md" = true /\ skipped "Readme.MD.bak" = true
      /\ skipped "REQUIREMENTS.TXT" = true /\ skipped ".ENV" = true
      /\ skipped ".gitignore" = true /\ skipped "a.py" = false
      /\ skipped "readme.txt" = false /\ skipped "env" = false)
  /\ (forall n top p,
        In p (get_all_files top n)
        <-> exists dirs file,
              file_at n dirs file /\ ~ In ".git" dirs
              /\ excluded_by_policy file = false
              /\ p = posixpath.join_all top (dirs ++ [file]))
  /\ (forall root, get_all_files root scenario = [posixpath.join root "a.py"])
  /\ (forall root,
        get_all_files root nested_scenario
        = [posixpath.join root "top.py";
           posixpath.join (posixpath.join root "src") "a.py"]).
Proof.
  split; [exact skipped_policy|].
  split; [repeat split; reflexivity|].
  split; [|split].
  - intros n top p. rewrite get_all_files_iff.
    split; intros [dirs [file [Hat [Hg [Hs Hp]]]]]; exists dirs, file;
      repeat split; try assumption;
      [now rewrite <- skipped_policy | now rewrite skipped_policy].
  - intros root. unfold scenario. rewrite get_all_files_dir. reflexivity.
  - intros root. reflexivity.
Qed.

(** ** Paths *)

Section Paths.

Local Abbreviation sep := posixpath.sep.

Lemma split_not_nil (s : string) : Py.split sep s <> [].
Proof.
  destruct s as [|c s]; simpl; [discriminate|].
  destruct (Ascii.eqb c sep); [discriminate|].
  destruct (Py.split sep s); discriminate.
Qed.

(** [(a + "/" + b).split("/") == a.split("/") + b.split("/")] *)
Lemma split_app_sep (a b : string) :
  Py.split sep (a ++ String sep b) = (Py.split sep a ++ Py.split sep b)%list.
Proof.
  induction a as [|c a IH]; simpl.
  - reflexivity.
  - destruct (Ascii.eqb c sep); rewrite IH; [reflexivity|].
    pose proof (split_not_nil a) as Hn.
    destruct (Py.split sep a); [now elim Hn | reflexivity].
Qed.

Lemma split_no_sep (s : string) : no_sep s = true -> Py.split sep s = [s].
Proof.
  induction s as [|c s IH]; simpl; [reflexivity|].
  intros H. apply andb_prop in H as [Hc Hs].
  apply negb_true_iff in Hc. rewrite Hc, (IH Hs). reflexivity.
Qed.

Lemma split_all_no_sep (s : string) :
  Forall (fun c => no_sep c = true) (Py.split sep s).
Proof.
  induction s as [|c s IH]; simpl.
  - now repeat constructor.
  - destruct (Ascii.eqb c sep) eqn:E; [now constructor|].
    assert (Hc : forall x, no_sep x = true -> no_sep (String c x) = true)
      by (intros x Hx; simpl; now rewrite E).
    destruct (Py.split sep s) as [|x l].
    + constructor; [now apply Hc | constructor].
    + inversion IH; subst. constructor; [now apply Hc | assumption].
Qed.

Lemma prefix_empty (s : string) : String.prefix "" s = true.
Proof. now destruct s. Qed.

Lemma startswith_sep (s : string) :
  Py.startswith s "/" = true <-> exists s', s = String sep s'.
Proof.
  unfold Py.startswith. destruct s as [|c s].
  - split; [discriminate | intros [? ?]; discriminate].
  - change (String.prefix "/" (String c s))
      with (if ascii_dec "/" c then String.prefix "" s else false).
    destruct (ascii_dec "/" c) as [<-|n].
    + split; [now exists s | intros _; apply prefix_empty].
    + split; [discriminate | intros [? [= -> _]]; now elim n].
Qed.

Lemma plain_spec (name : string) :
  plain name = true
  <-> name <> "" /\ name <> "." /\ name <> ".." /\ no_sep name = true.
Proof.
  unfold plain. rewrite !andb_true_iff, !negb_true_iff, !String.eqb_neq.
  tauto.
Qed.

Lemma no_sep_startswith (s : string) :
  no_sep s = true -> Py.startswith s "/" = false.
Proof.
  intros H. destruct (Py.startswith s "/") eqn:E; [|reflexivity].
  apply startswith_sep in E as [s' ->]. discriminate.
Qed.

Lemma endswith_app (a b : string) (c : ascii) :
  b <> "" -> Py.endswith_char (a ++ b) c = Py.endswith_char b c.
Proof.
  intros Hb. induction a as [|x a IH]; [reflexivity|].
  change (String x a ++ b) with (String x (a ++ b)).
  cbn [Py.endswith_char]. destruct (a ++ b) eqn:E; [|exact IH].
  apply append_eq_nil in E as [_ ->]. now elim Hb.
Qed.

Lemma no_sep_endswith (s : string) :
  no_sep s = true -> Py.endswith_char s sep = false.
Proof.
  induction s as [|c s IH]; [reflexivity|].
  simpl. intros H. apply andb_prop in H as [Hc Hs].
  destruct s; [now apply negb_true_iff in Hc | now apply IH].
Qed.

(** Joining a name to a directory that is not written with a final
    separator. *)
Lemma join_plain (a b : string) :
  a <> "" -> Py.endswith_char a sep = false -> plain b = true ->
  posixpath.join a b = a ++ "/" ++ b.
Proof.
  intros Ha He Hb. apply plain_spec in Hb as (_ & _ & _ & Hs).
  unfold posixpath.join.
  rewrite (no_sep_startswith _ Hs), He.
  apply String.eqb_neq in Ha. now rewrite Ha.
Qed.

Lemma join_plain_shape (a b : string) :
  plain b = true ->
  a ++ "/" ++ b <> "" /\ Py.endswith_char (a ++ "/" ++ b) sep = false.
Proof.
  intros Hb. apply plain_spec in Hb as (Hn & _ & _ & Hs). split.
  - intros H. apply append_eq_nil in H as [_ H]. discriminate.
  - rewrite endswith_app by discriminate.
    change ("/" ++ b) with (String sep "" ++ b).
    rewrite endswith_app by assumption. now apply no_sep_endswith.
Qed.

Lemma join_all_plain (names : list string) :
  forall a,
    a <> "" -> Py.endswith_char a sep = false ->
    forallb plain names = true ->
    posixpath.join_all a names
    = a ++ flatten (map (fun name => "/" ++ name) names).
Proof.
  unfold posixpath.join_all.
  induction names as [|name names IH]; intros a Ha He Hp; simpl.
  - now rewrite append_nil_r.
  - simpl in Hp. apply andb_prop in Hp as [Hn Hp].
    rewrite (join_plain a name Ha He Hn).
    destruct (join_plain_shape a name Hn) as [Ha' He'].
    rewrite (IH _ Ha' He' Hp). now rewrite !append_assoc.
Qed.

Lemma split_join_all (names : list string) :
  forall a,
    a <> "" -> Py.endswith_char a sep = false ->
    forallb plain names = true ->
    Py.split sep (posixpath.join_all a names)
    = (Py.split sep a ++ names)%list.
Proof.
  unfold posixpath.join_all.
  induction names as [|name names IH]; intros a Ha He Hp; simpl.
  - now rewrite app_nil_r.
  - simpl in Hp. apply andb_prop in Hp as [Hn Hp].
    rewrite (join_plain a name Ha He Hn).
    destruct (join_plain_shape a name Hn) as [Ha' He'].
    rewrite (IH _ Ha' He' Hp).
    change (a ++ "/" ++ name) with (a ++ String sep name).
    rewrite split_app_sep, <- app_assoc.
    apply plain_spec in Hn as (_ & _ & _ & Hs).
    now rewrite (split_no_sep _ Hs).
Qed.

Lemma join_concat (names : list string) (a : string) :
  Py.join "/" (a :: names)
  = a ++ flatten (map (fun name => "/" ++ name) names).
Proof.
  revert a. induction names as [|name names IH]; intros a.
  - simpl. now rewrite append_nil_r.
  - change (Py.join "/" (a :: name :: names))
      with (a ++ "/" ++ Py.join "/" (name :: names)).
    rewrite IH. reflexivity.
Qed.

End Paths.

Section RelativePath.

Local Abbreviation sep := posixpath.sep.

Let comp_ok (c : string) : Prop := c <> "" /\ no_sep c = true.

Lemma norm_step_plain k stack name :
  plain name = true -> posixpath.norm_step k stack name = name :: stack.
Proof.
  intros H. apply plain_spec in H as (H1 & H2 & H3 & _).
  unfold posixpath.norm_step.
  apply String.eqb_neq in H1, H2, H3. now rewrite H1, H2, H3.
Qed.

Lemma norm_fold_plain k names :
  forall stack,
    forallb plain names = true ->
    fold_left (posixpath.norm_step k) names stack = (rev names ++ stack)%list.
Proof.
  induction names as [|name names IH]; intros stack Hp; simpl;
    [reflexivity|].
  simpl in Hp. apply andb_prop in Hp as [Hn Hp].
  rewrite (norm_step_plain _ _ _ Hn), (IH _ Hp), <- app_assoc. reflexivity.
Qed.

Lemma norm_fold_abs k comps :
  k <> 0%nat ->
  forall stack,
    fold_left (posixpath.norm_step k) comps stack
    = fold_left (posixpath.norm_step 1) comps stack.
Proof.
  intros Hk. induction comps as [|c comps IH]; intros stack; simpl;
    [reflexivity|].
  rewrite IH. f_equal. unfold posixpath.norm_step.
  apply Nat.eqb_neq in Hk. now rewrite Hk.
Qed.

Lemma norm_step_ok k stack comp :
  Forall comp_ok stack -> no_sep comp = true ->
  Forall comp_ok (posixpath.norm_step k stack comp).
Proof.
  intros Hs Hc. unfold posixpath.norm_step.
  destruct (String.eqb_spec comp ""); [assumption|].
  destruct (comp =? "."); simpl; [assumption|].
  match goal with |- Forall _ (if ?b then _ else _) => destruct b end.
  - constructor; [now split | assumption].
  - destruct stack; [assumption | now inversion Hs].
Qed.

Lemma norm_fold_ok k comps :
  forall stack,
    Forall comp_ok stack -> Forall (fun c => no_sep c = true) comps ->
    Forall comp_ok (fold_left (posixpath.norm_step k) comps stack).
Proof.
  induction comps as [|c comps IH]; intros stack Hs Hc; simpl;
    [assumption|].
  inversion Hc; subst. apply IH; [now apply norm_step_ok | assumption].
Qed.

Lemma split_join_ok (cs : list string) :
  Forall comp_ok cs ->
  filter posixpath.nonempty (Py.split sep (Py.join "/" cs)) = cs.
Proof.
  induction cs as [|c cs IH]; intros H; [reflexivity|].
  inversion H as [|? ? [Hne Hs] Hcs]; subst.
  assert (Hc : posixpath.nonempty c = true)
    by (unfold posixpath.nonempty; apply String.eqb_neq in Hne;
        now rewrite Hne).
  destruct cs as [|c' cs].
  - simpl. rewrite (split_no_sep _ Hs). simpl. now rewrite Hc.
  - change (Py.join "/" (c :: c' :: cs))
      with (c ++ String sep (Py.join "/" (c' :: cs))).
    rewrite split_app_sep, (split_no_sep _ Hs).
    simpl app. cbn [filter]. rewrite Hc. f_equal. exact (IH Hcs).
Qed.

Lemma split_slashes n s :
  filter posixpath.nonempty (Py.split sep (Py.repeat "/" n ++ s))
  = filter posixpath.nonempty (Py.split sep s).
Proof.
  induction n as [|n IH]; [reflexivity|].
  change (Py.repeat "/" (S n) ++ s) with (String sep (Py.repeat "/" n ++ s)).
  exact IH.
Qed.

Lemma initial_slashes_pos path :
  Py.startswith path "/" = true -> posixpath.initial_slashes path <> 0%nat.
Proof.
  intros H. unfold posixpath.initial_slashes. rewrite H.
  now destruct (_ && _).
Qed.

(** The components of the normal form of an absolute path. *)
Lemma normpath_comps path :
  Py.startswith path "/" = true ->
  filter posixpath.nonempty (Py.split sep (posixpath.normpath path))
  = rev (fold_left (posixpath.norm_step 1) (Py.split sep path) []).
Proof.
  intros H. pose proof (initial_slashes_pos _ H) as Hn.
  unfold posixpath.normpath.
  destruct (proj1 (startswith_sep path) H) as [s' Hp].
  replace (path =? "") with false by (now rewrite Hp).
  cbv zeta. rewrite (norm_fold_abs _ _ Hn).
  destruct (posixpath.initial_slashes path) as [|n]; [now elim Hn|].
  change (Py.repeat "/" (S n) ++ ?x) with (String sep (Py.repeat "/" n ++ x)).
  cbn [String.eqb].
  change (String sep (Py.repeat "/" n ++ ?x)) with (Py.repeat "/" (S n) ++ x).
  rewrite split_slashes. apply split_join_ok.
  apply Forall_rev. apply norm_fold_ok; [constructor|].
  apply split_all_no_sep.
Qed.

Lemma abspath_abs cwd path :
  Py.startswith path "/" = true ->
  posixpath.abspath cwd path = posixpath.normpath path.
Proof. intros H. unfold posixpath.abspath. now rewrite H. Qed.

Lemma commonprefix_len_app (l names : list string) :
  posixpath.commonprefix_len l (l ++ names) = List.length l.
Proof.
  induction l as [|x l IH]; simpl; [reflexivity|].
  now rewrite String.eqb_refl, IH.
Qed.

Lemma skipn_length_app {A : Type} (l l' : list A) :
  skipn (List.length l) (l ++ l') = l'.
Proof. induction l as [|x l IH]; [reflexivity | exact IH]. Qed.

Lemma relpath_some cwd p start :
  p <> "" -> exists rel, posixpath.relpath cwd p start = Some rel.
Proof.
  intros Hp. unfold posixpath.relpath.
  apply String.eqb_neq in Hp. rewrite Hp. cbv zeta.
  match goal with |- exists _, match ?l with _ => _ end = _ => destruct l end;
    eauto.
Qed.

(** The path of a file reached from the root through plain names,
    relative to the root, is those names joined by the separator. *)
Lemma relpath_under cwd root names :
  Py.startswith root "/" = true ->
  Py.endswith_char root sep = false ->
  names <> [] ->
  forallb plain names = true ->
  posixpath.relpath cwd (posixpath.join_all root names) root
  = Some (Py.join "/" names).
Proof.
  intros Hs He Hn Hp.
  destruct (proj1 (startswith_sep root) Hs) as [r Hr].
  assert (Hne : root <> "") by (rewrite Hr; discriminate).
  pose proof (join_all_plain names root Hne He Hp) as Hpath.
  assert (Hps : Py.startswith (posixpath.join_all root names) "/" = true).
  { rewrite Hpath, Hr. apply startswith_sep. eexists. reflexivity. }
  unfold posixpath.relpath.
  replace (posixpath.join_all root names =? "") with false
    by (rewrite Hpath, Hr; reflexivity).
  rewrite !abspath_abs, !normpath_comps by assumption.
  rewrite (split_join_all names root Hne He Hp), fold_left_app.
  rewrite (norm_fold_plain _ _ _ Hp), rev_app_distr, rev_involutive.
  rewrite commonprefix_len_app, Nat.sub_diag, skipn_length_app.
  destruct names as [|a p]; [now elim Hn|].
  simpl in Hp. apply andb_prop in Hp as [Ha Hp].
  cbn [List.repeat app]. f_equal.
  apply plain_spec in Ha as (Ha & _ & _ & Hsa).
  rewrite (join_all_plain p a Ha (no_sep_endswith _ Hsa) Hp).
  symmetry. apply join_concat.
Qed.

End RelativePath.

(** Every path the enumerator returns from a tree of plain names is
    reached from the root through plain names. *)
Lemma get_all_files_under_root (n : node) :
  forall top,
    well_named n = true ->
    Forall (fun p => exists names,
                names <> [] /\ forallb plain names = true
                /\ p = posixpath.join_all top names)
      (get_all_files top n).
Proof.
  induction n as [|listable entries IH] using node_induction; intros top Hw.
  - constructor.
  - destruct listable; [|constructor].
    cbn [well_named] in Hw. rewrite forallb_forall in Hw.
    rewrite Forall_forall in IH.
    rewrite get_all_files_dir. apply Forall_app. split.
    + apply Forall_forall. intros p Hp.
      apply in_map_iff in Hp as [file [<- Hf]].
      apply filter_In in Hf as [Hf _].
      apply in_map_iff in Hf as [e [<- He]].
      apply filter_In in He as [He _].
      apply Hw in He. apply andb_prop in He as [He _].
      exists [fst e]. repeat split; [discriminate | simpl; now rewrite He].
    + apply Forall_forall. intros p Hp.
      apply in_flat_map in Hp as [dirname [_ Hp]].
      destruct (lookup dirname entries) as [child|] eqn:Hl; [|now elim Hp].
      apply lookup_In in Hl.
      pose proof (Hw _ Hl) as Hd. apply andb_prop in Hd as [Hd Hc].
      specialize (IH _ Hl (posixpath.join top dirname) Hc).
      rewrite Forall_forall in IH.
      destruct (IH p Hp) as [names [Hn [Hpl ->]]].
      exists (dirname :: names). repeat split; [discriminate|].
      simpl in *. now rewrite Hd.
Qed.

(** ** The file formatter *)

(** C3.  A file whose read succeeds is formatted as its text between the
    lines [<relative/path>] and [</relative/path>], the path being the one
    [os.path.relpath] computes against the workspace root.  For a root
    written as an absolute path without a final separator and a file
    reached from it through the names [names], the relative path is these
    names joined by the separator: with the names [src], [a.txt] and the
    text [hello] the result is [<src/a.txt>], [hello], [</src/a.txt>] on
    three lines. *)
Theorem format_file_content_block (h : host) (root : string) :
  (forall file_path content,
      file_path <> "" ->
      read_text h file_path = inl content ->
      exists rel,
        posixpath.relpath (cwd h) file_path root = Some rel
        /\ format_file_content h file_path root
           = inl ("<" ++ rel ++ ">" ++ Py.nl ++ content ++ Py.nl
                  ++ "</" ++ rel ++ ">"))
  /\ (forall names content,
        Py.startswith root "/" = true ->
        Py.endswith_char root posixpath.sep = false ->
        names <> [] ->
        forallb plain names = true ->
        read_text h (posixpath.join_all root names) = inl content ->
        format_file_content h (posixpath.join_all root names) root
        = inl ("<" ++ Py.join "/" names ++ ">" ++ Py.nl ++ content ++ Py.nl
               ++ "</" ++ Py.join "/" names ++ ">")).
Proof.
  split.
  - intros file_path content Hp Hread.
    destruct (relpath_some (cwd h) file_path root Hp) as [rel Hrel].
    exists rel. split; [exact Hrel|].
    unfold format_file_content. now rewrite Hread, Hrel.
  - intros names content Hs He Hn Hp Hread. unfold format_file_content.
    now rewrite Hread, (relpath_under _ _ _ Hs He Hn Hp).
Qed.

(** C3, at the input of the specification. *)
Lemma format_file_content_block_witness :
  read_text sample_host "/tmp/ws/src/a.txt" = inl "hello"
  /\ format_file_content sample_host "/tmp/ws/src/a.txt" "/tmp/ws"
     = inl ("<src/a.txt>" ++ Py.nl ++ "hello" ++ Py.nl ++ "</src/a.txt>").
Proof.
  split; [reflexivity|].
  apply (proj2 (format_file_content_block sample_host "/tmp/ws")
           ["src"; "a.txt"] "hello");
    try reflexivity.
  discriminate.
Defined.

(** ** The orchestrator *)

Section Orchestrator.

Variable h : host.

Lemma after_after w dk1 cs1 dk2 cs2 :
  after (after w dk1 cs1) dk2 cs2 = after w dk2 (cs1 ++ cs2).
Proof. unfold after. simpl. now rewrite <- app_assoc. Qed.

Lemma after_nil w : after w (disk w) [] = w.
Proof. destruct w. unfold after. simpl. now rewrite app_nil_r. Qed.


Lemma without_idem name dk : without name (without name dk) = without name dk.
Proof.
  induction dk as [|[k v] dk IH]; simpl; [reflexivity|].
  destruct (k =? name) eqn:E; simpl; [exact IH|].
  rewrite E. simpl. now rewrite IH.
Qed.

Lemma format_nonempty p root :
  p <> "" -> format_file_content h p root = inl (block_of h root p).
Proof.
  intros Hp. unfold block_of, format_file_content.
  destruct (relpath_some (cwd h) p root Hp) as [rel ->]. reflexivity.
Qed.

Lemma format_inl p root b :
  format_file_content h p root = inl b -> b = block_of h root p.
Proof. intros H. unfold block_of. now rewrite H. Qed.

Lemma format_step_run root parts p w :
  format_step h root parts p w
  = match format_file_content h p root with
    | inl b => (Ok (parts ++ [b])%list,
                after w (disk w) [FormatFileContent p root])
    | inr e => (Raise e, after w (disk w) [FormatFileContent p root])
    end.
Proof.
  unfold format_step, format_file_content_at, bind, log.
  destruct (format_file_content h p root); reflexivity.
Qed.

(** The loop over the files either formats them all, or stops at the
    first one whose formatting raises. *)
Lemma for_each_format_run root files :
  forall parts w,
    (Forall (fun p => format_file_content h p root = inl (block_of h root p))
       files
     /\ for_each files parts (format_step h root) w
        = (Ok (parts ++ map (block_of h root) files)%list,
           after w (disk w) (map (fun p => FormatFileContent p root) files)))
    \/ (exists k e,
           (exists p, In p files /\ format_file_content h p root = inr e)
           /\ for_each files parts (format_step h root) w
              = (Raise e,
                 after w (disk w)
                   (map (fun p => FormatFileContent p root)
                      (firstn k files)))).
Proof.
  induction files as [|p files IH]; intros parts w.
  - left. split; [constructor|]. simpl. unfold ret.
    now rewrite app_nil_r, after_nil.
  - cbn [for_each]. unfold bind. rewrite !format_step_run.
    destruct (format_file_content h p root) as [b|e] eqn:E; cbv beta iota.
    + apply format_inl in E as Hb. subst b.
      destruct (IH (parts ++ [block_of h root p])%list
                  (after w (disk w) [FormatFileContent p root]))
        as [[Hall Hrun]|[k [e [[q [Hq Hqe]] Hrun]]]].
      * left. split; [now constructor|].
        eapply eq_trans; [exact Hrun|].
        rewrite after_after, <- app_assoc. reflexivity.
      * right. exists (S k), e. split; [exists q; split; [now right | exact Hqe]|].
        eapply eq_trans; [exact Hrun|].
        rewrite after_after. reflexivity.
    + right. exists 1%nat, e. split; [exists p; split; [now left | exact E]|].
      reflexivity.
Qed.

Lemma rmtree_run name n w :
  lookup name (disk w) = Some n ->
  rmtree name w = (Ok tt, after w (without name (disk w)) [Rmtree name]).
Proof.
  intros H. unfold rmtree, bind, log, get_disk. simpl. now rewrite H.
Qed.

Lemma mkdtemp_run w :
  mkdtemp h w
  = (Ok (tmp_name h),
     after w ((tmp_name h, Dir true []) :: disk w) [Mkdtemp (tmp_name h)]).
Proof. reflexivity. Qed.

Lemma extract_body_cloned url d w :
  git_clone h url d = Exited 0 ->
  extract_body h url d w
  = for_each (get_all_files d (checkout h url)) (header (checkout h url))
      (format_step h d)
      (after w ((d, checkout h url) :: without d (disk w))
         [GitClone url d; BuildFileTree d; GetAllFiles d]).
Proof.
  intros H.
  unfold extract_body, clone_github_repo, build_file_tree_at,
    get_all_files_at, bind, log, get_disk, set_disk, ret.
  rewrite H. simpl. rewrite String.eqb_refl.
  unfold after, header. simpl. now rewrite <- !app_assoc.
Qed.

Lemma extract_body_failed url d w :
  (exists code, git_clone h url d = Exited code /\ code <> 0%Z) ->
  extract_body h url d w
  = (Raise clone_error, after w (disk w) [GitClone url d]).
Proof.
  intros [code [H Hc]].
  unfold extract_body, clone_github_repo, bind, log, raise.
  rewrite H. destruct code; [now elim Hc | reflexivity | reflexivity].
Qed.

Lemma extract_body_not_run url d w e :
  git_clone h url d = NotRun e ->
  extract_body h url d w = (Raise e, after w (disk w) [GitClone url d]).
Proof.
  intros H. unfold extract_body, clone_github_repo, bind, log, raise.
  now rewrite H.
Qed.

End Orchestrator.

Section Runs.

Variable h : host.

Local Abbreviation d := (tmp_name h).

Lemma extract_unfold url w :
  extract_repo_contents h url w
  = match try_finally (extract_body h url d) (rmtree d)
            (after w ((d, Dir true []) :: disk w) [Mkdtemp d]) with
    | (Ok parts, w') => (Ok (Py.join Py.nl parts), after w' (disk w') [JoinParts])
    | (Raise e, w') => (Raise e, w')
    end.
Proof.
  unfold extract_repo_contents, bind. rewrite mkdtemp_run.
  destruct (try_finally _ _ _) as [[parts|e] w']; reflexivity.
Qed.

Lemma disk_after w dk cs : disk (after w dk cs) = dk.
Proof. reflexivity. Qed.

Lemma without_head name n dk :
  without name ((name, n) :: dk) = without name dk.
Proof. unfold without. simpl. now rewrite String.eqb_refl. Qed.

Lemma lookup_head {A : Type} name (v : A) l :
  lookup name ((name, v) :: l) = Some v.
Proof. simpl. now rewrite String.eqb_refl. Qed.

(** A run whose clone succeeded: all files are formatted and the
    document is joined, or the formatting of some file raises; the
    workspace is removed either way. *)
Lemma extract_cloned url w :
  git_clone h url d = Exited 0 ->
  let t := checkout h url in
  let files := get_all_files d t in
  (Forall (fun p => format_file_content h p d = inl (block_of h d p)) files
   /\ extract_repo_contents h url w
      = (Ok (Py.join Py.nl (header t ++ map (block_of h d) files)),
         after w (without d (disk w))
           (calls_through_format url d files ++ [Rmtree d; JoinParts])))
  \/ (exists k e,
         (exists p, In p files /\ format_file_content h p d = inr e)
         /\ extract_repo_contents h url w
            = (Raise e,
               after w (without d (disk w))
                 (calls_through_format url d (firstn k files) ++ [Rmtree d]))).
Proof.
  intros H t files. rewrite extract_unfold. unfold try_finally.
  rewrite (extract_body_cloned h url d _ H). fold t. fold files.
  rewrite after_after, disk_after.
  destruct (for_each_format_run h d files (header t)
              (after w ((d, t) :: without d ((d, Dir true []) :: disk w))
                 ([Mkdtemp d] ++ [GitClone url d; BuildFileTree d; GetAllFiles d])))
    as [[Hall Hrun]|[k [e [Hp Hrun]]]].
  - left. split; [exact Hall|].
    rewrite Hrun, after_after, disk_after.
    rewrite (rmtree_run d t) by apply lookup_head.
    rewrite !after_after, !disk_after.
    rewrite !without_head, without_idem.
    unfold calls_through_format. now rewrite <- !app_assoc.
  - right. exists k, e. split; [exact Hp|].
    rewrite Hrun, after_after, disk_after.
    rewrite (rmtree_run d t) by apply lookup_head.
    rewrite !after_after, !disk_after.
    rewrite !without_head, without_idem.
    unfold calls_through_format. now rewrite <- !app_assoc.
Qed.

Lemma extract_raised url w e :
  extract_body h url d (after w ((d, Dir true []) :: disk w) [Mkdtemp d])
  = (Raise e,
     after (after w ((d, Dir true []) :: disk w) [Mkdtemp d])
       ((d, Dir true []) :: disk w) [GitClone url d]) ->
  extract_repo_contents h url w
  = (Raise e,
     after w (without d (disk w)) [Mkdtemp d; GitClone url d; Rmtree d]).
Proof.
  intros H. rewrite extract_unfold. unfold try_finally. rewrite H.
  rewrite after_after.
  rewrite (rmtree_run d (Dir true [])) by apply lookup_head.
  rewrite !after_after, !disk_after. now rewrite without_head.
Qed.

(** A run whose clone exits with a non-zero status. *)
Lemma extract_failed url w :
  (exists code, git_clone h url d = Exited code /\ code <> 0%Z) ->
  extract_repo_contents h url w
  = (Raise clone_error,
     after w (without d (disk w)) [Mkdtemp d; GitClone url d; Rmtree d]).
Proof.
  intros H. apply extract_raised.
  now rewrite (extract_body_failed h url d _ H).
Qed.

(** A run whose clone could not be started. *)
Lemma extract_not_run url w e :
  git_clone h url d = NotRun e ->
  extract_repo_contents h url w
  = (Raise e,
     after w (without d (disk w)) [Mkdtemp d; GitClone url d; Rmtree d]).
Proof.
  intros H. apply extract_raised.
  now rewrite (extract_body_not_run h url d _ e H).
Qed.

Lemma join_nonempty a b : a <> "" -> posixpath.join a b <> "".
Proof.
  intros Ha. unfold posixpath.join.
  destruct (Py.startswith b "/") eqn:E.
  - apply startswith_sep in E as [b' ->]. discriminate.
  - destruct (_ || _); intros H; apply append_eq_nil in H as [H _];
      now elim Ha.
Qed.

Lemma get_all_files_nonempty n :
  forall top, top <> "" -> Forall (fun p => p <> "") (get_all_files top n).
Proof.
  induction n as [|listable entries IH] using node_induction; intros top Ht.
  - constructor.
  - destruct listable; [|constructor].
    rewrite get_all_files_dir. apply Forall_app. split.
    + apply Forall_forall. intros p Hp.
      apply in_map_iff in Hp as [file [<- _]]. now apply join_nonempty.
    + apply Forall_forall. intros p Hp.
      apply in_flat_map in Hp as [dirname [_ Hp]].
      destruct (lookup dirname entries) as [child|] eqn:Hl; [|now elim Hp].
      apply lookup_In in Hl. rewrite Forall_forall in IH.
      specialize (IH _ Hl (posixpath.join top dirname)
                    (join_nonempty _ _ Ht)).
      rewrite Forall_forall in IH. now apply IH.
Qed.

(** A run whose clone succeeded, from a workspace with a name. *)
Lemma extract_ok url w :
  git_clone h url d = Exited 0 ->
  d <> "" ->
  let t := checkout h url in
  let files := get_all_files d t in
  extract_repo_contents h url w
  = (Ok (Py.join Py.nl (header t ++ map (block_of h d) files)),
     after w (without d (disk w))
       (calls_through_format url d files ++ [Rmtree d; JoinParts])).
Proof.
  intros H Hd t files.
  destruct (extract_cloned url w H) as [[_ Hrun]|[k [e [[p [Hp He]] _]]]];
    [exact Hrun|].
  pose proof (get_all_files_nonempty t d Hd) as Hne.
  rewrite Forall_forall in Hne.
  rewrite (format_nonempty h p d (Hne p Hp)) in He. discriminate.
Qed.


End Runs.


(** C9, as the code has it.  A run that returns a document has cloned
    with exit status 0; the document is the segments [File Tree:], the
    rendered tree, the line of forty dashes and one block per enumerated
    file in the order of the enumeration, joined by newlines; and the
    calls are made in the order: create the workspace, clone, render the
    tree, enumerate, format each file, remove the workspace, join. *)
Theorem successful_extraction_document
    (h : host) (url : string) (w : world) (out : string) (w' : world) :
  extract_repo_contents h url w = (Ok out, w') ->
  let d := tmp_name h in
  let t := checkout h url in
  let files := get_all_files d t in
  git_clone h url d = Exited 0
  /\ Forall (fun p => format_file_content h p d = inl (block_of h d p)) files
  /\ out = Py.join Py.nl
             ("File Tree:" :: build_file_tree t "" :: Py.repeat "-" 40
                :: map (block_of h d) files)
  /\ calls w'
     = (calls w
        ++ [Mkdtemp d; GitClone url d; BuildFileTree d; GetAllFiles d]
        ++ map (fun p => FormatFileContent p d) files
        ++ [Rmtree d; JoinParts])%list.
Proof.
  intros H d t files.
  destruct (git_clone h url d) as [code|e] eqn:Hc.
  - destruct (Z.eq_dec code 0) as [->|Hne].
    + destruct (extract_cloned h url w Hc) as [[Hall Hrun]|[k [e [_ Hrun]]]];
        rewrite Hrun in H; [|discriminate].
      injection H as <- <-.
      split; [reflexivity|]. split; [exact Hall|]. split; reflexivity.
    + rewrite (extract_failed h url w) in H by (now exists code).
      discriminate.
  - rewrite (extract_not_run h url w e Hc) in H. discriminate.
Qed.

(** The handler on an entry that is not blank: the extraction runs after
    the placeholder text is shown, and its document or its failure is
    displayed. *)
Lemma on_extract_run (h : host) (entry : string) (w : world) :
  Py.strip entry <> "" ->
  on_extract h entry w
  = match extract_repo_contents h (Py.strip entry)
            {| disk := disk w;
               calls := (calls w ++ [Update])%list;
               text_output := "Processing repository. Please wait..." ++ Py.nl |}
    with
    | (Ok out, w') =>
        (Ok tt, {| disk := disk w'; calls := calls w'; text_output := out |})
    | (Raise e, w') =>
        (Ok tt,
         {| disk := disk w';
            calls := (calls w'
                      ++ [ShowError "Error" ("An error occurred: " ++ e)])%list;
            text_output := "An error occurred:" ++ Py.nl ++ e |})
    end.
Proof.
  intros Hu. unfold on_extract. apply String.eqb_neq in Hu. rewrite Hu.
  cbv beta iota zeta delta
    [bind try_except text_delete_all text_insert_end set_text get_text log
     showerror disk calls text_output].
  destruct (extract_repo_contents h (Py.strip entry) _) as [[out|e] w'];
    reflexivity.
Qed.


(** C8.  With an empty entry the handler only shows the error dialog
    [Please enter a valid GitHub repository URL.]: no workspace is created
    and no clone is run; the disk and the output area are untouched. *)
Theorem empty_url_is_rejected (h : host) (w : world) :
  on_extract h "" w
  = (Ok tt,
     after w (disk w)
       [ShowError "Error" "Please enter a valid GitHub repository URL."]).
Proof. reflexivity. Qed.

Section Whitespace.

Lemma space2_not_space1 a b :
  Py.is_space2 a b = true -> Py.is_space1 a = false.
Proof.
  unfold Py.is_space2, Py.is_space1. intros H.
  apply andb_prop in H as [Ha _]. apply Nat.eqb_eq in Ha. now rewrite Ha.
Qed.

Lemma space3_not_space12 a b c :
  Py.is_space3 a b c = true ->
  Py.is_space1 a = false /\ Py.is_space2 a b = false.
Proof.
  intros H.
  assert (E : Py.code a = 225 \/ Py.code a = 226 \/ Py.code a = 227).
  { unfold Py.is_space3 in H.
    rewrite !orb_true_iff, !andb_true_iff, !Nat.eqb_eq in H. tauto. }
  unfold Py.is_space1, Py.is_space2.
  destruct E as [E|[E|E]]; rewrite E; split; reflexivity.
Qed.

Lemma lstrip_blank s : Py.blank s -> Py.lstrip s = "".
Proof.
  induction 1 as [|a s Ha _ IH|a b s Hab _ IH|a b c s Habc _ IH];
    cbn [Py.lstrip].
  - reflexivity.
  - now rewrite Ha.
  - now rewrite (space2_not_space1 _ _ Hab), Hab.
  - destruct (space3_not_space12 _ _ _ Habc) as [E1 E2].
    now rewrite E1, E2, Habc.
Qed.

Lemma strip_blank s : Py.blank s -> Py.strip s = "".
Proof. intros H. unfold Py.strip. now rewrite (lstrip_blank s H). Qed.

End Whitespace.

(** C10.  An entry made of whitespace characters only is stripped to the
    empty string: the handler shows the same error dialog and makes no
    other call. *)
Theorem blank_url_is_rejected (h : host) (entry : string) (w : world) :
  Py.blank entry ->
  on_extract h entry w
  = (Ok tt,
     after w (disk w)
       [ShowError "Error" "Please enter a valid GitHub repository URL."]).
Proof.
  intros H. unfold on_extract. now rewrite (strip_blank entry H).
Qed.

(** C5, as the code has it.  When the read of a file fails, the formatter
    returns the block of the file with [Error reading file: ] followed by
    the message of the exception as its content; and an extraction whose
    clone succeeded returns the document with the block of every
    enumerated file, whatever the reads answer. *)
Theorem read_failure_is_inlined (h : host) :
  (forall p root e,
      read_text h p = inr e -> p <> "" ->
      exists rel,
        posixpath.relpath (cwd h) p root = Some rel
        /\ format_file_content h p root
           = inl ("<" ++ rel ++ ">" ++ Py.nl ++ "Error reading file: " ++ e
                  ++ Py.nl ++ "</" ++ rel ++ ">"))
  /\ (forall url w,
        git_clone h url (tmp_name h) = Exited 0 -> tmp_name h <> "" ->
        let d := tmp_name h in
        let t := checkout h url in
        let files := get_all_files d t in
        extract_repo_contents h url w
        = (Ok (Py.join Py.nl (header t ++ map (block_of h d) files)),
           after w (without d (disk w))
             (calls_through_format url d files ++ [Rmtree d; JoinParts]))).
Proof.
  split.
  - intros p root e Hr Hp.
    destruct (relpath_some (cwd h) p root Hp) as [rel Hrel].
    exists rel. split; [exact Hrel|].
    unfold format_file_content. now rewrite Hr, Hrel.
  - intros url w Hc Hd. now apply extract_ok.
Qed.

(** ** The statements on the sample host *)

(** C2 on [src/a.txt] of the sample tree. *)
Lemma enumerator_exclusion_policy_witness :
  exists dirs file,
    file_at sample_tree dirs file /\ ~ In ".git" dirs
    /\ excluded_by_policy file = false
    /\ "/tmp/ws/src/a.txt" = posixpath.join_all "/tmp/ws" (dirs ++ [file]).
Proof.
  apply (proj1 (proj1 (proj2 (proj2 enumerator_exclusion_policy))
                  sample_tree "/tmp/ws" "/tmp/ws/src/a.txt")).
  vm_compute. left. reflexivity.
Defined.


(** C5: the content of the block of a file whose read fails is not the
    message of the exception alone. *)
Lemma read_failure_content_counterexample :
  read_text sample_host "/tmp/ws/src/b.bin" = inr "boom"
  /\ posixpath.relpath (cwd sample_host) "/tmp/ws/src/b.bin" "/tmp/ws"
     = Some "src/b.bin"
  /\ format_file_content sample_host "/tmp/ws/src/b.bin" "/tmp/ws"
     <> inl ("<src/b.bin>" ++ Py.nl ++ "boom" ++ Py.nl ++ "</src/b.bin>").
Proof.
  split; [reflexivity|]. split; [reflexivity|].
  vm_compute. discriminate.
Qed.

(** C5, as the code has it, on the same file. *)
Lemma read_failure_is_inlined_witness :
  exists rel,
    posixpath.relpath (cwd sample_host) "/tmp/ws/src/b.bin" "/tmp/ws" = Some rel
    /\ format_file_content sample_host "/tmp/ws/src/b.bin" "/tmp/ws"
       = inl ("<" ++ rel ++ ">" ++ Py.nl ++ "Error reading file: " ++ "boom"
              ++ Py.nl ++ "</" ++ rel ++ ">").
Proof.
  apply (proj1 (read_failure_is_inlined sample_host)).
  - reflexivity.
  - discriminate.
Defined.

(** C9: on the sample repository the document is joined after the
    workspace is removed, not before. *)
Lemma join_before_removal_counterexample :
  exists out w',
    extract_repo_contents sample_host sample_url sample_world = (Ok out, w')
    /\ calls w'
       <> [Mkdtemp "/tmp/ws"; GitClone sample_url "/tmp/ws";
           BuildFileTree "/tmp/ws"; GetAllFiles "/tmp/ws";
           FormatFileContent "/tmp/ws/src/a.txt" "/tmp/ws";
           FormatFileContent "/tmp/ws/src/b.bin" "/tmp/ws";
           JoinParts; Rmtree "/tmp/ws"].
Proof.
  eexists. eexists. split; [vm_compute; reflexivity|].
  simpl. discriminate.
Qed.

(** C9, as the code has it, on the sample repository. *)
Lemma successful_extraction_document_witness :
  calls (snd (extract_repo_contents sample_host sample_url sample_world))
  = [Mkdtemp "/tmp/ws"; GitClone sample_url "/tmp/ws";
     BuildFileTree "/tmp/ws"; GetAllFiles "/tmp/ws";
     FormatFileContent "/tmp/ws/src/a.txt" "/tmp/ws";
     FormatFileContent "/tmp/ws/src/b.bin" "/tmp/ws";
     Rmtree "/tmp/ws"; JoinParts].
Proof.
  exact (proj2 (proj2 (proj2
    (successful_extraction_document sample_host sample_url sample_world
       (match fst (extract_repo_contents sample_host sample_url sample_world)
        with Ok out => out | Raise _ => "" end)
       (snd (extract_repo_contents sample_host sample_url sample_world))
       eq_refl)))).
Defined.

(** C10 on a space, a tab and a no-break space. *)
Lemma blank_url_is_rejected_witness :
  on_extract sample_host
    (String " " (String "009" (String "194" (String "160" ""))))
    sample_world
  = (Ok tt,
     {| disk := [];
        calls := [ShowError "Error" "Please enter a valid GitHub repository URL."];
        text_output := "" |}).
Proof.
  apply (blank_url_is_rejected sample_host
           (String " " (String "009" (String "194" (String "160" ""))))
           sample_world).
  apply Py.blank_1; [reflexivity|].
  apply Py.blank_1; [reflexivity|].
  apply Py.blank_2; [reflexivity|].
  apply Py.blank_nil.
Defined.

(** ** Further properties of the enumerator *)


(** X1.  A path is returned by [get_all_files] exactly when it is the
    path of an entry that is not a directory, whose name is not skipped,
    and that the walk reaches through listable directories none of which
    is named [.git]. *)
Theorem enumerator_returns_exactly (n : node) (top p : string) :
  In p (get_all_files top n)
  <-> exists dirs file,
        file_at n dirs file /\ ~ In ".git" dirs /\ skipped file = false
        /\ p = posixpath.join_all top (dirs ++ [file]).
Proof. apply get_all_files_iff. Qed.

(** X2.  In a tree of plain names no path the enumerator returns has a
    component named [.git], at any depth, and its last component is not a
    skipped name. *)
Theorem enumerator_never_enters_git (n : node) (top p : string) :
  well_named n = true ->
  In p (get_all_files top n) ->
  exists names,
    p = posixpath.join_all top names
    /\ forallb plain names = true
    /\ ~ In ".git" names
    /\ skipped (last names "") = false.
Proof.
  intros Hw Hp.
  apply get_all_files_iff in Hp as [dirs [file [Hat [Hng [Hs ->]]]]].
  exists (dirs ++ [file])%list. split; [reflexivity|].
  split; [now apply (file_at_plain n)|]. split.
  - intros Hin. apply in_app_or in Hin as [Hin|[Hf|[]]]; [now apply Hng|].
    rewrite Hf in Hs. discriminate.
  - now rewrite last_last.
Qed.

(** ** Further properties of the tree renderer *)

Section TreeListing.

Lemma build_file_tree_flatten (n : node) :
  forall prefix,
    build_file_tree n prefix = flatten (map row_line (tree_rows n prefix)).
Proof.
  induction n as [|listable entries IH] using node_induction; intros prefix;
    [reflexivity|].
  destruct listable; [|reflexivity].
  rewrite build_file_tree_level. cbn [tree_rows].
  apply render_level_rows. intros item p.
  unfold subtree, below_entry.
  rewrite (lookup_map (fun c => (isdir c, tree_rows c))).
  destruct (lookup item entries) as [child|] eqn:Hl; [|reflexivity].
  rewrite Forall_forall in IH.
  specialize (IH _ (lookup_In _ _ _ Hl) p). simpl in IH.
  destruct child; [reflexivity | exact IH].
Qed.





Lemma strongly_sorted_unique (l1 : list string) :
  forall l2,
    StronglySorted (fun a b => String.leb a b = true) l1 ->
    StronglySorted (fun a b => String.leb a b = true) l2 ->
    Permutation l1 l2 -> l1 = l2.
Proof.
  induction l1 as [|a l1 IH]; intros l2 H1 H2 Hp.
  - now apply Permutation_nil in Hp.
  - destruct l2 as [|b l2];
      [apply Permutation_sym in Hp; now apply Permutation_nil in Hp|].
    inversion H1 as [|? ? H1' Ha]; inversion H2 as [|? ? H2' Hb]; subst.
    rewrite Forall_forall in Ha, Hb.
    assert (Hab : a = b).
    { destruct (Permutation_in a Hp (or_introl eq_refl)) as [Hba|Hin];
        [now symmetry|].
      destruct (Permutation_in b (Permutation_sym Hp) (or_introl eq_refl))
        as [Heq|Hin']; [exact Heq|].
      apply String.leb_antisym; [now apply Ha | now apply Hb]. }
    subst b. f_equal. apply IH; try assumption.
    now apply Permutation_cons_inv in Hp.
Qed.

Lemma sorted_Permutation (l1 l2 : list string) :
  Permutation l1 l2 -> sorted l1 = sorted l2.
Proof.
  intros Hp. apply strongly_sorted_unique; try apply sorted_strongly.
  unfold sorted.
  apply Permutation_trans with l1;
    [apply Permutation_sym, StringSort.Permuted_sort|].
  apply Permutation_trans with l2; [exact Hp | apply StringSort.Permuted_sort].
Qed.

Lemma lookup_of_key {A : Type} (k : string) (l : list (string * A)) :
  In k (map fst l) -> exists v, lookup k l = Some v.
Proof.
  induction l as [|[k' v] l IH]; simpl; [intros []|].
  intros H. destruct (String.eqb_spec k' k) as [_|Hne]; [now exists v|].
  destruct H as [H|H]; [now elim Hne | now apply IH].
Qed.

Lemma lookup_key {A : Type} (k : string) (v : A) (l : list (string * A)) :
  lookup k l = Some v -> In k (map fst l).
Proof. intros H. apply lookup_In in H. now apply (in_map fst) in H. Qed.

Lemma same_tree_isdir n n' : same_tree n n' -> isdir n = isdir n'.
Proof. now destruct 1. Qed.

(** X5.  The tree text does not depend on the order in which the
    operating system lists the entries of the directories, at any depth. *)
Theorem tree_ignores_listing_order (n n' : node) :
  same_tree n n' ->
  forall prefix, build_file_tree n prefix = build_file_tree n' prefix.
Proof.
  induction 1 as [|listable es es' Hperm Hsame IH]; intros prefix;
    [reflexivity|].
  destruct listable; [|reflexivity].
  rewrite !build_file_tree_level, (sorted_Permutation _ _ Hperm).
  apply render_level_ext. intros item q. unfold subtree.
  destruct (lookup item es) as [c|] eqn:E1;
    destruct (lookup item es') as [c'|] eqn:E2.
  - rewrite (same_tree_isdir _ _ (Hsame _ _ _ E1 E2)), (IH _ _ _ E1 E2 q).
    reflexivity.
  - apply lookup_key in E1.
    apply (Permutation_in _ Hperm) in E1.
    apply lookup_of_key in E1 as [v Hv]. congruence.
  - apply lookup_key in E2.
    apply (Permutation_in _ (Permutation_sym Hperm)) in E2.
    apply lookup_of_key in E2 as [v Hv]. congruence.
  - reflexivity.
Qed.

End TreeListing.




(** ** Further properties of the formatter *)

(** X6.  For an absolute path under an absolute root,
    [format_file_content] always returns a block, whether the read
    succeeds or fails: the content is the text read, or [Error reading
    file: ] and the message.  For the empty path it raises the [no path
    specified] of [os.path.relpath], the read failure of that path being
    swallowed first. *)
Theorem formatter_returns_on_absolute_paths (h : host) (p root : string) :
  (Py.startswith p "/" = true -> Py.startswith root "/" = true ->
   exists rel,
     posixpath.relpath (cwd h) p root = Some rel
     /\ format_file_content h p root
        = inl ("<" ++ rel ++ ">" ++ Py.nl
               ++ match read_text h p with
                  | inl text => text
                  | inr e => "Error reading file: " ++ e
                  end
               ++ Py.nl ++ "</" ++ rel ++ ">"))
  /\ format_file_content h "" root = inr "no path specified".
Proof.
  split; [|reflexivity].
  intros Hp _. apply startswith_sep in Hp as [p' ->].
  destruct (relpath_some (cwd h) (String posixpath.sep p') root)
    as [rel Hrel]; [discriminate|].
  exists rel. split; [exact Hrel|].
  unfold format_file_content. now rewrite Hrel.
Qed.

(** X7.  Under a root written as an absolute path without a final
    separator, every path the enumerator returns from a tree of plain
    names is the root, a separator and a relative path, and
    [os.path.relpath] gives that relative path back, whatever the working
    directory: the tags of the blocks never show the workspace. *)
Theorem enumerated_paths_round_trip
    (h : host) (root : string) (n : node) (p : string) :
  Py.startswith root "/" = true ->
  Py.endswith_char root posixpath.sep = false ->
  well_named n = true ->
  In p (get_all_files root n) ->
  exists names,
    names <> [] /\ forallb plain names = true
    /\ p = root ++ "/" ++ Py.join "/" names
    /\ posixpath.relpath (cwd h) p root = Some (Py.join "/" names).
Proof.
  intros Hs He Hw Hp.
  pose proof (get_all_files_under_root n root Hw) as Hall.
  rewrite Forall_forall in Hall.
  destruct (Hall p Hp) as [names [Hn [Hpl ->]]].
  exists names. split; [exact Hn|]. split; [exact Hpl|]. split.
  - destruct (proj1 (startswith_sep root) Hs) as [r Hr].
    assert (Hne : root <> "") by (rewrite Hr; discriminate).
    rewrite (join_all_plain names root Hne He Hpl).
    destruct names as [|a rest]; [now elim Hn|].
    rewrite join_concat. reflexivity.
  - now apply relpath_under.
Qed.

(** ** Further properties of the orchestrator and of the handler *)

Section Outcomes.

Variable h : host.

Local Abbreviation d := (tmp_name h).


(** Every run ends with the workspace removed from the disk it started
    from, after the calls that created it and cloned into it. *)
Lemma extract_any url w :
  exists r rest,
    extract_repo_contents h url w
    = (r, after w (without d (disk w))
            (Mkdtemp d :: GitClone url d :: rest)).
Proof.
  destruct (git_clone h url d) as [code|e] eqn:Hc.
  - destruct (Z.eq_dec code 0) as [->|Hne].
    + destruct (extract_cloned h url w Hc) as [[_ Hrun]|[k [e [_ Hrun]]]];
        rewrite Hrun; eexists; eexists; reflexivity.
    + rewrite (extract_failed h url w) by (now exists code).
      eexists; eexists; reflexivity.
  - rewrite (extract_not_run h url w e Hc). eexists; eexists; reflexivity.
Qed.

Lemma extract_success_exit url w out w' :
  extract_repo_contents h url w = (Ok out, w') ->
  git_clone h url d = Exited 0.
Proof.
  intros H. destruct (git_clone h url d) as [code|e] eqn:Hc.
  - destruct (Z.eq_dec code 0) as [->|Hne]; [reflexivity|].
    rewrite (extract_failed h url w) in H by (now exists code). discriminate.
  - rewrite (extract_not_run h url w e Hc) in H. discriminate.
Qed.

End Outcomes.


(** X10.  An error that keeps [git] from running is not a
    [CalledProcessError]: its own message, not the clone message, is
    raised after the workspace is removed, and the handler shows it in
    the output area and in the error dialog. *)
Theorem unstartable_clone_error_passes_through
    (h : host) (url e : string) (w : world) :
  git_clone h url (tmp_name h) = NotRun e ->
  let d := tmp_name h in
  extract_repo_contents h url w
  = (Raise e, after w (without d (disk w)) [Mkdtemp d; GitClone url d; Rmtree d])
  /\ (forall entry,
        Py.strip entry = url -> url <> "" ->
        on_extract h entry w
        = (Ok tt,
           {| disk := without d (disk w);
              calls := (calls w
                        ++ [Update; Mkdtemp d; GitClone url d; Rmtree d;
                            ShowError "Error" ("An error occurred: " ++ e)])%list;
              text_output := "An error occurred:" ++ Py.nl ++ e |})).
Proof.
  intros Hc d. split; [now apply extract_not_run|].
  intros entry Hs Hu. rewrite on_extract_run by (now rewrite Hs).
  rewrite Hs, (extract_not_run h url _ e Hc).
  unfold after. simpl. now rewrite <- !app_assoc.
Qed.

(** X11.  The handler never lets an exception escape: whatever the entry,
    the clone and the reads do, [on_extract] returns. *)
Theorem handler_never_raises (h : host) (entry : string) (w : world) :
  exists w', on_extract h entry w = (Ok tt, w').
Proof.
  destruct (String.eqb_spec (Py.strip entry) "") as [He|Hne].
  - unfold on_extract. rewrite He. eexists. reflexivity.
  - rewrite (on_extract_run h entry w Hne).
    destruct (extract_repo_contents h (Py.strip entry) _) as [[out|e] w'];
      eexists; reflexivity.
Qed.

(** X12.  The URL is not validated beyond being non-blank: for every
    entry that does not strip to the empty string the handler creates a
    workspace and runs the clone on the stripped entry. *)
Theorem nonblank_entry_is_cloned (h : host) (entry : string) (w : world) :
  Py.strip entry <> "" ->
  exists w' rest,
    on_extract h entry w = (Ok tt, w')
    /\ calls w'
       = (calls w
          ++ Update :: Mkdtemp (tmp_name h)
               :: GitClone (Py.strip entry) (tmp_name h) :: rest)%list.
Proof.
  intros Hne. rewrite (on_extract_run h entry w Hne).
  destruct (extract_any h (Py.strip entry)
              {| disk := disk w;
                 calls := (calls w ++ [Update])%list;
                 text_output := "Processing repository. Please wait..." ++ Py.nl |})
    as [r [rest Hrun]].
  rewrite Hrun. destruct r as [out|e]; eexists; eexists;
    (split; [reflexivity|]); simpl; rewrite <- !app_assoc; reflexivity.
Qed.

(** X13.  When the extraction returns a document, the handler replaces
    whatever the output area held, placeholder included, by exactly that
    document, shows no dialog, and leaves no workspace. *)
Theorem success_is_displayed
    (h : host) (entry : string) (w : world) (out : string) (w' : world) :
  Py.strip entry <> "" ->
  extract_repo_contents h (Py.strip entry)
    {| disk := disk w;
       calls := (calls w ++ [Update])%list;
       text_output := "Processing repository. Please wait..." ++ Py.nl |}
  = (Ok out, w') ->
  let url := Py.strip entry in
  let d := tmp_name h in
  let t := checkout h url in
  let files := get_all_files d t in
  out = Py.join Py.nl (header t ++ map (block_of h d) files)
  /\ on_extract h entry w
     = (Ok tt,
        {| disk := without d (disk w);
           calls := (calls w
                     ++ Update :: calls_through_format url d files
                     ++ [Rmtree d; JoinParts])%list;
           text_output := out |}).
Proof.
  intros Hne Hrun url d t files.
  pose proof (extract_success_exit h _ _ _ _ Hrun) as Hc.
  rewrite (on_extract_run h entry w Hne).
  destruct (extract_cloned h (Py.strip entry)
              {| disk := disk w;
                 calls := (calls w ++ [Update])%list;
                 text_output := "Processing repository. Please wait..." ++ Py.nl |}
              Hc)
    as [[_ Hok]|[k [e [_ Hraise]]]].
  - rewrite Hok in Hrun. injection Hrun as <- <-.
    split; [reflexivity|].
    rewrite Hok. unfold after. simpl. now rewrite <- !app_assoc.
  - rewrite Hraise in Hrun. discriminate.
Qed.

(** ** Whitespace around the URL *)

Section Padding.

Ltac settle n :=
  repeat match goal with
    | |- context [(n =? ?k)%nat] =>
        replace (n =? k)%nat with false
          by (symmetry; apply Nat.eqb_neq; lia)
    | |- context [(n <=? ?k)%nat] =>
        first [ replace (n <=? k)%nat with false
                  by (symmetry; apply Nat.leb_gt; lia)
              | replace (n <=? k)%nat with true
                  by (symmetry; apply Nat.leb_le; lia) ]
    | |- context [(?k <=? n)%nat] =>
        first [ replace (k <=? n)%nat with false
                  by (symmetry; apply Nat.leb_gt; lia)
              | replace (k <=? n)%nat with true
                  by (symmetry; apply Nat.leb_le; lia) ]
    end;
  cbn; rewrite ?andb_false_r; cbn; try reflexivity.

Lemma graphic_not_space c :
  graphic c = true ->
  Py.is_space1 c = false
  /\ (forall b, Py.is_space2 c b = false)
  /\ (forall b, Py.is_space2 b c = false)
  /\ (forall a b, Py.is_space3 c a b = false)
  /\ (forall a b, Py.is_space3 a b c = false).
Proof.
  intros H. apply andb_prop in H as [H1 H2].
  apply Nat.leb_le in H1, H2.
  unfold Py.is_space1, Py.is_space2, Py.is_space3.
  repeat split; intros; settle (Py.code c).
Qed.

Lemma space2_tail b c : Py.is_space2 b c = true -> Py.is_space1 c = false.
Proof.
  unfold Py.is_space2, Py.is_space1. intros H.
  apply andb_prop in H as [_ H]. apply orb_prop in H as [H|H];
    apply Nat.eqb_eq in H; now rewrite H.
Qed.

Lemma space3_tail a b c :
  Py.is_space3 a b c = true ->
  Py.is_space1 c = false /\ Py.is_space2 b c = false.
Proof.
  intros H.
  assert (Hb : Py.code b = 154 \/ Py.code b = 128 \/ Py.code b = 129).
  { unfold Py.is_space3 in H.
    rewrite !orb_true_iff, !andb_true_iff, !Nat.eqb_eq in H. tauto. }
  assert (Hc : 128 <= Py.code c).
  { unfold Py.is_space3 in H.
    repeat (rewrite ?orb_true_iff, ?andb_true_iff in H).
    rewrite ?Nat.eqb_eq, ?Nat.leb_le in H. lia. }
  split.
  - unfold Py.is_space1. settle (Py.code c).
  - unfold Py.is_space2.
    replace (Py.code b =? 194)%nat with false
      by (symmetry; apply Nat.eqb_neq; lia).
    reflexivity.
Qed.

Lemma lstrip_blank_app a s : Py.blank a -> Py.lstrip (a ++ s) = Py.lstrip s.
Proof.
  induction 1 as [|x a Hx _ IH|x y a Hxy _ IH|x y z a Hxyz _ IH];
    cbn [String.append Py.lstrip].
  - reflexivity.
  - now rewrite Hx.
  - now rewrite (space2_not_space1 _ _ Hxy), Hxy.
  - destruct (space3_not_space12 _ _ _ Hxyz) as [E1 E2].
    now rewrite E1, E2, Hxyz.
Qed.

Lemma rstrip_rev_blank l r :
  blank_rev l -> Py.rstrip_rev (l ++ r) = Py.rstrip_rev r.
Proof.
  induction 1 as [|c l Hc _ IH|b c l Hbc _ IH|a b c l Habc _ IH];
    cbn [app Py.rstrip_rev].
  - reflexivity.
  - now rewrite Hc.
  - now rewrite (space2_tail _ _ Hbc), Hbc.
  - destruct (space3_tail _ _ _ Habc) as [E1 E2].
    now rewrite E1, E2, Habc.
Qed.

Lemma blank_rev_app l1 l2 :
  blank_rev l1 -> blank_rev l2 -> blank_rev (l1 ++ l2).
Proof.
  induction 1; intros H2; cbn [app]; try assumption.
  - apply blank_rev_1; auto.
  - apply blank_rev_2; auto.
  - apply blank_rev_3; auto.
Qed.

Lemma blank_reversed s :
  Py.blank s -> blank_rev (rev (list_ascii_of_string s)).
Proof.
  induction 1 as [|x s Hx _ IH|x y s Hxy _ IH|x y z s Hxyz _ IH];
    cbn [list_ascii_of_string rev].
  - constructor.
  - apply blank_rev_app; [exact IH|]. apply blank_rev_1; [exact Hx|constructor].
  - rewrite <- app_assoc. apply blank_rev_app; [exact IH|].
    apply (blank_rev_2 x y []); [exact Hxy | constructor].
  - rewrite <- !app_assoc. apply blank_rev_app; [exact IH|].
    apply (blank_rev_3 x y z []); [exact Hxyz | constructor].
Qed.

Lemma list_ascii_app s1 s2 :
  list_ascii_of_string (s1 ++ s2)
  = (list_ascii_of_string s1 ++ list_ascii_of_string s2)%list.
Proof.
  induction s1 as [|c s1 IH]; simpl; [reflexivity | now rewrite IH].
Qed.

Lemma rstrip_app_blank u b : Py.blank b -> Py.rstrip (u ++ b) = Py.rstrip u.
Proof.
  intros H. unfold Py.rstrip.
  rewrite list_ascii_app, rev_app_distr.
  now rewrite (rstrip_rev_blank _ _ (blank_reversed b H)).
Qed.

Lemma lstrip_graphic c m : graphic c = true -> Py.lstrip (String c m) = String c m.
Proof.
  intros H. destruct (graphic_not_space c H) as (H1 & H2 & _ & H3 & _).
  cbn [Py.lstrip]. rewrite H1.
  destruct m as [|b m]; [reflexivity|]. rewrite H2.
  destruct m as [|a m]; [reflexivity|]. now rewrite H3.
Qed.

Lemma rstrip_graphic m c :
  graphic c = true -> Py.rstrip (m ++ String c "") = m ++ String c "".
Proof.
  intros H. destruct (graphic_not_space c H) as (H1 & _ & H2 & _ & H3).
  unfold Py.rstrip. rewrite list_ascii_app, rev_app_distr.
  cbn [list_ascii_of_string rev app Py.rstrip_rev]. rewrite H1.
  assert (Hkeep :
    match rev (list_ascii_of_string m) with
    | [] => c :: rev (list_ascii_of_string m)
    | b :: r2 =>
        if Py.is_space2 b c then Py.rstrip_rev r2
        else match r2 with
             | [] => c :: rev (list_ascii_of_string m)
             | a :: r3 =>
                 if Py.is_space3 a b c then Py.rstrip_rev r3
                 else c :: rev (list_ascii_of_string m)
             end
    end = c :: rev (list_ascii_of_string m)).
  { destruct (rev (list_ascii_of_string m)) as [|b r2]; [reflexivity|].
    rewrite H2. destruct r2 as [|a r3]; [reflexivity|]. now rewrite H3. }
  rewrite Hkeep. cbn [rev]. rewrite rev_involutive.
  rewrite <- (string_of_list_ascii_of_string (m ++ String c "")).
  now rewrite list_ascii_app.
Qed.

(** Stripping a trimmed string padded with whitespace gives the string. *)
Lemma strip_padded a u b :
  Py.blank a -> Py.blank b -> trimmed u -> Py.strip (a ++ u ++ b) = u.
Proof.
  intros Ha Hb [[c [m [Hu Hc]]] [m' [c' [Hu' Hc']]]].
  unfold Py.strip. rewrite (lstrip_blank_app a _ Ha).
  rewrite Hu. change (String c m ++ b) with (String c (m ++ b)).
  rewrite (lstrip_graphic c _ Hc).
  change (String c (m ++ b)) with (String c m ++ b).
  rewrite (rstrip_app_blank _ b Hb), <- Hu, Hu'.
  now apply rstrip_graphic.
Qed.

End Padding.

(** X14.  Whitespace around the URL is ignored: for a URL that begins
    and ends with a printable character, the entry padded with
    whitespace on either side strips to the URL, and the handler does on
    it exactly what it does on the URL alone. *)
Theorem padded_url_is_trimmed (a u b : string) :
  Py.blank a -> Py.blank b -> trimmed u ->
  Py.strip (a ++ u ++ b) = u
  /\ forall h w, on_extract h (a ++ u ++ b) w = on_extract h u w.
Proof.
  intros Ha Hb Hu.
  pose proof (strip_padded a u b Ha Hb Hu) as H1.
  pose proof (strip_padded "" u "" Py.blank_nil Py.blank_nil Hu) as H2.
  simpl in H2. rewrite append_nil_r in H2.
  split; [exact H1|].
  intros h w. unfold on_extract. now rewrite H1, H2.
Qed.

(** ** No file twice, and the shape of the lines *)

Section Distinct.

Local Abbreviation sep := posixpath.sep.

Lemma append_inv_head (a b c : string) : a ++ b = a ++ c -> b = c.
Proof.
  induction a as [|x a IH]; simpl; [auto|]. intros [= H]. now apply IH.
Qed.

Lemma NoDup_map_filter {A B : Type} (f : A -> B) (keep : A -> bool)
    (l : list A) :
  NoDup (map f l) -> NoDup (map f (filter keep l)).
Proof.
  induction l as [|a l IH]; simpl; [auto|].
  intros H. inversion H as [|? ? Hn Hl]; subst.
  destruct (keep a); [|now apply IH].
  simpl. constructor; [|now apply IH].
  intros Hin. apply Hn. apply in_map_iff in Hin as [x [Hx Hf]].
  apply filter_In in Hf as [Hf _]. rewrite <- Hx. now apply in_map.
Qed.

Lemma NoDup_flat_map {A B : Type} (g : A -> list B) (l : list A) :
  NoDup l ->
  (forall x, In x l -> NoDup (g x)) ->
  (forall x y b, In x l -> In y l -> In b (g x) -> In b (g y) -> x = y) ->
  NoDup (flat_map g l).
Proof.
  induction 1 as [|a l Ha Hl IH]; intros Hg Hd; simpl; [constructor|].
  apply NoDup_app.
  - apply Hg. now left.
  - apply IH.
    + intros x Hx. apply Hg. now right.
    + intros x y b Hx Hy. apply Hd; now right.
  - intros b Hb Hin. apply in_flat_map in Hin as [y [Hy Hby]].
    apply Ha. rewrite (Hd a y b); auto; [now left | now right].
Qed.

(** The components of a path returned below the subdirectory [x]. *)
Lemma split_below top entries x child b :
  top <> "" -> Py.endswith_char top sep = false ->
  well_named (Dir true entries) = true ->
  lookup x entries = Some child ->
  In b (get_all_files (posixpath.join top x) child) ->
  exists names,
    names <> [] /\ Py.split sep b = (Py.split sep top ++ x :: names)%list.
Proof.
  intros Ht He Hw Hl Hb.
  cbn [well_named] in Hw. rewrite forallb_forall in Hw.
  pose proof (Hw _ (lookup_In _ _ _ Hl)) as Hx.
  apply andb_prop in Hx as [Hx Hc]. simpl in Hx, Hc.
  pose proof (get_all_files_under_root child (posixpath.join top x) Hc) as Hall.
  rewrite Forall_forall in Hall.
  destruct (Hall b Hb) as [names [Hn [Hp ->]]].
  exists names. split; [exact Hn|].
  change (posixpath.join_all (posixpath.join top x) names)
    with (posixpath.join_all top (x :: names)).
  apply split_join_all; try assumption.
  simpl. now rewrite Hx.
Qed.

Lemma split_here top file :
  top <> "" -> Py.endswith_char top sep = false -> plain file = true ->
  Py.split sep (posixpath.join top file) = (Py.split sep top ++ [file])%list.
Proof.
  intros Ht He Hf.
  change (posixpath.join top file) with (posixpath.join_all top [file]).
  apply split_join_all; try assumption. simpl. now rewrite Hf.
Qed.

Lemma entry_plain entries name :
  well_named (Dir true entries) = true ->
  In name (map fst entries) -> plain name = true.
Proof.
  intros Hw Hin. cbn [well_named] in Hw. rewrite forallb_forall in Hw.
  apply in_map_iff in Hin as [e [<- He]].
  apply Hw in He. now apply andb_prop in He as [He _].
Qed.

(** X15.  From a tree of plain names in which no directory lists a name
    twice, and under a root without a final separator, the enumerator
    returns no path twice: no file gets two blocks in the document. *)
Theorem enumerator_returns_no_path_twice (n : node) :
  forall top,
    top <> "" -> Py.endswith_char top sep = false ->
    well_named n = true -> distinct_names n ->
    NoDup (get_all_files top n).
Proof.
  induction n as [|listable entries IH] using node_induction;
    intros top Ht He Hw Hd; [constructor|].
  destruct listable; [|constructor].
  rewrite Forall_forall in IH.
  inversion Hd as [|? ? Hkeys Hsub]; subst.
  assert (Hfile : forall f,
    In f (filter (fun file => negb (skipped file))
            (map fst (filter (fun e => negb (isdir (snd e))) entries))) ->
    plain f = true).
  { intros f Hf. apply filter_In in Hf as [Hf _].
    apply (entry_plain entries f Hw).
    apply in_map_iff in Hf as [e [<- Hin]].
    apply filter_In in Hin as [Hin _]. now apply in_map. }
  rewrite get_all_files_dir. apply NoDup_app.
  - apply NoDup_map_NoDup_ForallPairs.
    + intros x y Hx Hy Heq.
      pose proof (split_here top x Ht He (Hfile x Hx)) as Sx.
      pose proof (split_here top y Ht He (Hfile y Hy)) as Sy.
      rewrite Heq, Sy in Sx. apply app_inv_head in Sx. now injection Sx.
    + apply NoDup_filter. now apply NoDup_map_filter.
  - apply NoDup_flat_map.
    + apply NoDup_filter. now apply NoDup_map_filter.
    + intros x _. destruct (lookup x entries) as [child|] eqn:Hl;
        [|constructor].
      pose proof (lookup_In _ _ _ Hl) as Hin.
      cbn [well_named] in Hw. rewrite forallb_forall in Hw.
      pose proof (Hw _ Hin) as Hx. apply andb_prop in Hx as [Hx Hc].
      simpl in Hx, Hc.
      rewrite (join_plain top x Ht He Hx).
      destruct (join_plain_shape top x Hx) as [Ht' He'].
      apply (IH _ Hin); try assumption. now apply (Hsub x).
    + intros x y b _ _ Hbx Hby.
      destruct (lookup x entries) as [cx|] eqn:Hlx; [|now elim Hbx].
      destruct (lookup y entries) as [cy|] eqn:Hly; [|now elim Hby].
      destruct (split_below top entries x cx b Ht He Hw Hlx Hbx)
        as [nx [_ Sx]].
      destruct (split_below top entries y cy b Ht He Hw Hly Hby)
        as [ny [_ Sy]].
      rewrite Sy in Sx. apply app_inv_head in Sx. now injection Sx.
  - intros a Ha Hin.
    apply in_map_iff in Ha as [f [<- Hf]].
    apply in_flat_map in Hin as [x [_ Hb]].
    destruct (lookup x entries) as [cx|] eqn:Hlx; [|now elim Hb].
    destruct (split_below top entries x cx _ Ht He Hw Hlx Hb)
      as [names [Hn Sx]].
    rewrite (split_here top f Ht He (Hfile f Hf)) in Sx.
    apply app_inv_head in Sx. injection Sx as _ Hnil. now apply Hn.
Qed.

Lemma tree_rows_shape (n : node) :
  forall prefix, Forall (row_shape prefix) (tree_rows n prefix).
Proof.
  induction n as [|listable entries IH] using node_induction; intros prefix;
    [constructor|].
  destruct listable; [|constructor].
  rewrite Forall_forall in IH. cbn [tree_rows].
  induction (filter listed (sorted (map fst entries))) as [|item rest IHl];
    cbn [level_rows]; [constructor|].
  apply Forall_app. split; [|exact IHl].
  constructor.
  - split.
    + simpl. destruct (is_last rest); [right | left]; reflexivity.
    + exists []. split; [simpl; now rewrite append_nil_r | constructor].
  - unfold below_entry.
    rewrite (lookup_map (fun c => (isdir c, tree_rows c))).
    destruct (lookup item entries) as [child|] eqn:Hl; [|constructor].
    simpl. destruct (isdir child); [|constructor].
    specialize (IH _ (lookup_In _ _ _ Hl)
                  (prefix ++ extension_of (is_last rest))).
    simpl in IH. apply (Forall_impl _ (P := row_shape
                          (prefix ++ extension_of (is_last rest)))); [|exact IH].
    intros r [Hc [exts [Hp Hk]]]. split; [exact Hc|].
    exists (extension_of (is_last rest) :: exts). split.
    + rewrite Hp. simpl. now rewrite append_assoc.
    + constructor; [|exact Hk].
      destruct (is_last rest); [right | left]; reflexivity.
Qed.

End Distinct.

Section Lines.

Lemma split_char_not_nil (c : ascii) (s : string) : Py.split c s <> [].
Proof.
  destruct s as [|a s]; simpl; [discriminate|].
  destruct (Ascii.eqb a c); [discriminate|].
  destruct (Py.split c s); discriminate.
Qed.

Lemma split_app_char (c : ascii) (a b : string) :
  Py.split c (a ++ String c b) = (Py.split c a ++ Py.split c b)%list.
Proof.
  induction a as [|x a IH]; simpl.
  - now rewrite Ascii.eqb_refl.
  - destruct (Ascii.eqb x c); rewrite IH; [reflexivity|].
    pose proof (split_char_not_nil c a) as Hn.
    destruct (Py.split c a); [now elim Hn | reflexivity].
Qed.

Lemma split_free (c : ascii) (s : string) :
  free_of c s = true -> Py.split c s = [s].
Proof.
  induction s as [|a s IH]; simpl; [reflexivity|].
  intros H. apply andb_prop in H as [Ha Hs].
  apply negb_true_iff in Ha. now rewrite Ha, (IH Hs).
Qed.

Lemma free_app (c : ascii) (a b : string) :
  free_of c (a ++ b) = free_of c a && free_of c b.
Proof.
  induction a as [|x a IH]; simpl; [reflexivity|].
  now rewrite IH, andb_assoc.
Qed.

(** Splitting lines that each end with the separator gives the lines
    back, and an empty string after the last separator. *)
Lemma split_lines (c : ascii) (ls : list string) :
  Forall (fun l => free_of c l = true) ls ->
  Py.split c (flatten (map (fun l => l ++ String c "") ls))
  = (ls ++ [""])%list.
Proof.
  induction 1 as [|l ls Hl _ IH]; [reflexivity|].
  cbn [map flatten fold_right app].
  change (fold_right String.append "" ?x) with (flatten x).
  rewrite append_assoc.
  change (String c "" ++ ?x) with (String c x).
  now rewrite split_app_char, (split_free c l Hl), IH.
Qed.

Lemma entry_one_line entries item :
  one_line_names (Dir true entries) = true ->
  In item (filter listed (sorted (map fst entries))) ->
  free_of newline item = true.
Proof.
  intros Hn Hin. cbn [one_line_names] in Hn. rewrite forallb_forall in Hn.
  apply filter_In in Hin as [Hin _].
  apply (Permutation_in item
           (Permutation_sym (StringSort.Permuted_sort (map fst entries))))
    in Hin.
  apply in_map_iff in Hin as [e [<- He]].
  apply Hn in He. now apply andb_prop in He as [He _].
Qed.

Lemma tree_rows_one_line (n : node) :
  forall prefix,
    free_of newline prefix = true -> one_line_names n = true ->
    Forall (fun r => free_of newline (row_text r) = true) (tree_rows n prefix).
Proof.
  induction n as [|listable entries IH] using node_induction;
    intros prefix Hp Hn; [constructor|].
  destruct listable; [|constructor].
  rewrite Forall_forall in IH. cbn [tree_rows].
  pose proof (entry_one_line entries) as Hitem.
  specialize (fun item => Hitem item Hn).
  induction (filter listed (sorted (map fst entries))) as [|item rest IHl];
    cbn [level_rows]; [constructor|].
  apply Forall_app. split;
    [|apply IHl; intros x Hx; apply Hitem; now right].
  assert (He : free_of newline (prefix ++ extension_of (is_last rest)) = true).
  { rewrite free_app, Hp. now destruct (is_last rest). }
  constructor.
  - unfold row_text. cbn [row_prefix row_connector row_item].
    rewrite !free_app, Hp, (Hitem item (or_introl eq_refl)).
    now destruct (is_last rest).
  - unfold below_entry.
    rewrite (lookup_map (fun c => (isdir c, tree_rows c))).
    destruct (lookup item entries) as [child|] eqn:Hl; [|constructor].
    simpl. destruct (isdir child); [|constructor].
    pose proof (lookup_In _ _ _ Hl) as Hin.
    apply (IH _ Hin); [exact He|].
    cbn [one_line_names] in Hn. rewrite forallb_forall in Hn.
    apply Hn in Hin. now apply andb_prop in Hin as [_ Hin].
Qed.

End Lines.

(** X16.  When neither the prefix nor any name of the tree holds a
    newline, the lines of the tree text (what stands between newlines,
    with nothing after the last one) each consist of the prefix, a run of
    continuations ([│   ] or four spaces), one of the connectors [├── ] and
    [└── ], and the rest of the line; there is one line per entry line
    written. *)
Theorem tree_lines_have_one_shape (n : node) (prefix : string) :
  free_of newline prefix = true ->
  one_line_names n = true ->
  exists lines,
    Py.split newline (build_file_tree n prefix) = (lines ++ [""])%list
    /\ List.length lines = List.length (tree_rows n prefix)
    /\ Forall
         (fun line =>
            exists exts last item,
              Forall continuation exts
              /\ line = prefix ++ flatten exts ++ connector_of last ++ item)
         lines.
Proof.
  intros Hp Hn. exists (map row_text (tree_rows n prefix)).
  split; [|split].
  - rewrite build_file_tree_flatten.
    rewrite <- (split_lines newline (map row_text (tree_rows n prefix))).
    + rewrite map_map. f_equal. f_equal. apply map_ext. intros r.
      unfold row_line, row_text. now rewrite !append_assoc.
    + apply Forall_forall. intros line Hin.
      apply in_map_iff in Hin as [r [<- Hr]].
      pose proof (tree_rows_one_line n prefix Hp Hn) as Hall.
      rewrite Forall_forall in Hall. now apply Hall.
  - apply length_map.
  - apply Forall_forall. intros line Hin.
    apply in_map_iff in Hin as [r [<- Hr]].
    pose proof (tree_rows_shape n prefix) as Hall.
    rewrite Forall_forall in Hall.
    destruct (Hall r Hr) as [Hc [exts [Hpre Hk]]].
    exists exts, (if String.eqb (row_connector r) "└── " then true else false),
      (row_item r).
    split; [exact Hk|]. unfold row_text. rewrite Hpre, append_assoc.
    destruct Hc as [-> | ->]; reflexivity.
Qed.

(** ** The further statements on the sample host *)

Section Samples.

Lemma sample_files :
  get_all_files "/tmp/ws" sample_tree
  = ["/tmp/ws/src/a.txt"; "/tmp/ws/src/b.bin"].
Proof. reflexivity. Qed.

Lemma sample_b_bin : In "/tmp/ws/src/b.bin" (get_all_files "/tmp/ws" sample_tree).
Proof. rewrite sample_files. right. now left. Defined.

Lemma sample_distinct : distinct_names sample_tree.
Proof.
  apply distinct_dir.
  - constructor; [intros [] | constructor].
  - intros name c [[= <- <-]|[]]. apply distinct_dir.
    + constructor; [|constructor; [intros [] | constructor]].
      intros [H|[]]. discriminate.
    + intros name' c' [[= <- <-]|[[= <- <-]|[]]]; constructor.
Defined.

Lemma sample_same : same_tree sample_tree sample_tree_relisted.
Proof.
  apply same_dir; [reflexivity|].
  intros name c c'. cbn -[String.eqb].
  destruct ("src" =? name); [|intros [=]].
  intros [= <-] [= <-]. apply same_dir; [apply perm_swap|].
  intros name' d d'. cbn -[String.eqb].
  destruct ("a.txt" =? name'), ("b.bin" =? name');
    intros [= <-] [= <-]; constructor.
Defined.

Lemma sample_trimmed : trimmed sample_url.
Proof.
  split.
  - exists "h"%char, "ttps://example.org/sample.git". now split.
  - exists "https://example.org/sample.gi", "t"%char. now split.
Defined.

Lemma sample_blank : Py.blank (String " " (String "009" "")).
Proof.
  apply Py.blank_1; [reflexivity|].
  apply Py.blank_1; [reflexivity|]. apply Py.blank_nil.
Defined.

End Samples.

(** X1 on [src/b.bin]. *)
Lemma enumerator_returns_exactly_witness :
  exists dirs file,
    file_at sample_tree dirs file /\ ~ In ".git" dirs /\ skipped file = false
    /\ "/tmp/ws/src/b.bin" = posixpath.join_all "/tmp/ws" (dirs ++ [file]).
Proof.
  apply (proj1 (enumerator_returns_exactly sample_tree "/tmp/ws"
                  "/tmp/ws/src/b.bin")).
  exact sample_b_bin.
Defined.

(** X2 on [src/b.bin]. *)
Lemma enumerator_never_enters_git_witness :
  exists names,
    "/tmp/ws/src/b.bin" = posixpath.join_all "/tmp/ws" names
    /\ forallb plain names = true
    /\ ~ In ".git" names
    /\ skipped (last names "") = false.
Proof.
  apply (enumerator_never_enters_git sample_tree "/tmp/ws" "/tmp/ws/src/b.bin").
  - reflexivity.
  - exact sample_b_bin.
Defined.



(** X5 on the sample tree listed in another order. *)
Lemma tree_ignores_listing_order_witness :
  build_file_tree sample_tree "" = build_file_tree sample_tree_relisted "".
Proof.
  apply (tree_ignores_listing_order sample_tree sample_tree_relisted).
  exact sample_same.
Defined.

(** X6 on [src/b.bin], whose read fails. *)
Lemma formatter_returns_on_absolute_paths_witness :
  exists rel,
    posixpath.relpath (cwd sample_host) "/tmp/ws/src/b.bin" "/tmp/ws" = Some rel
    /\ format_file_content sample_host "/tmp/ws/src/b.bin" "/tmp/ws"
       = inl ("<" ++ rel ++ ">" ++ Py.nl
              ++ match read_text sample_host "/tmp/ws/src/b.bin" with
                 | inl text => text
                 | inr e => "Error reading file: " ++ e
                 end
              ++ Py.nl ++ "</" ++ rel ++ ">").
Proof.
  apply (proj1 (formatter_returns_on_absolute_paths sample_host
                  "/tmp/ws/src/b.bin" "/tmp/ws")); reflexivity.
Defined.

(** X7 on [src/b.bin]. *)
Lemma enumerated_paths_round_trip_witness :
  exists names,
    names <> [] /\ forallb plain names = true
    /\ "/tmp/ws/src/b.bin" = "/tmp/ws" ++ "/" ++ Py.join "/" names
    /\ posixpath.relpath (cwd sample_host) "/tmp/ws/src/b.bin" "/tmp/ws"
       = Some (Py.join "/" names).
Proof.
  apply (enumerated_paths_round_trip sample_host "/tmp/ws" sample_tree
           "/tmp/ws/src/b.bin").
  - reflexivity.
  - reflexivity.
  - reflexivity.
  - exact sample_b_bin.
Defined.


(** X10 on the host without [git]. *)
Lemma unstartable_clone_error_passes_through_witness :
  extract_repo_contents gitless_host sample_url sample_world
  = (Raise "[Errno 2] No such file or directory: 'git'",
     {| disk := [];
        calls := [Mkdtemp "/tmp/ws"; GitClone sample_url "/tmp/ws";
                  Rmtree "/tmp/ws"];
        text_output := "" |}).
Proof.
  apply (unstartable_clone_error_passes_through gitless_host sample_url
           "[Errno 2] No such file or directory: 'git'" sample_world).
  reflexivity.
Defined.

(** X12 on the URL whose clone fails. *)
Lemma nonblank_entry_is_cloned_witness :
  exists w' rest,
    on_extract sample_host missing_url sample_world = (Ok tt, w')
    /\ calls w'
       = (calls sample_world
          ++ Update :: Mkdtemp "/tmp/ws"
               :: GitClone (Py.strip missing_url) "/tmp/ws" :: rest)%list.
Proof.
  apply (nonblank_entry_is_cloned sample_host missing_url sample_world).
  vm_compute. discriminate.
Defined.

(** X13 on the sample URL. *)
Lemma success_is_displayed_witness :
  text_output (snd (on_extract sample_host sample_url sample_world))
  = Py.join Py.nl
      (header sample_tree
       ++ map (block_of sample_host "/tmp/ws")
            ["/tmp/ws/src/a.txt"; "/tmp/ws/src/b.bin"]).
Proof.
  destruct (success_is_displayed sample_host sample_url sample_world
              (match fst (extract_repo_contents sample_host sample_url
                            {| disk := [];
                               calls := [Update];
                               text_output :=
                                 "Processing repository. Please wait..."
                                 ++ Py.nl |})
               with Ok out => out | Raise _ => "" end)
              (snd (extract_repo_contents sample_host sample_url
                      {| disk := [];
                         calls := [Update];
                         text_output :=
                           "Processing repository. Please wait..." ++ Py.nl |}))
              ltac:(vm_compute; discriminate) eq_refl) as [Hout Hrun].
  rewrite Hrun. exact Hout.
Defined.

(** X14 on the sample URL between a space and a tab on the left and a
    newline on the right. *)
Lemma padded_url_is_trimmed_witness :
  Py.strip (String " " (String "009" "") ++ sample_url ++ Py.nl) = sample_url.
Proof.
  apply (padded_url_is_trimmed (String " " (String "009" "")) sample_url Py.nl).
  - exact sample_blank.
  - apply Py.blank_1; [reflexivity | apply Py.blank_nil].
  - exact sample_trimmed.
Defined.

(** X15 on the sample tree. *)
Lemma enumerator_returns_no_path_twice_witness :
  NoDup (get_all_files "/tmp/ws" sample_tree).
Proof.
  apply (enumerator_returns_no_path_twice sample_tree "/tmp/ws").
  - discriminate.
  - reflexivity.
  - reflexivity.
  - exact sample_distinct.
Defined.

(** X16 on the sample tree. *)
Lemma tree_lines_have_one_shape_witness :
  exists lines,
    Py.split newline (build_file_tree sample_tree "") = (lines ++ [""])%list
    /\ List.length lines = List.length (tree_rows sample_tree "")
    /\ Forall
         (fun line =>
            exists exts last item,
              Forall continuation exts
              /\ line = "" ++ flatten exts ++ connector_of last ++ item)
         lines.
Proof.
  apply (tree_lines_have_one_shape sample_tree ""); reflexivity.
Defined.
